(** * Session continuity shim and publish tool of the fraud agent

    A shallow embedding of [fraud-agent/implicit_session_service.py] and of
    [publish_record] from [fraud-agent/agent/agent.py].

    The session store the shim proxies ([BaseSessionService] of the agent
    development kit) is an external collaborator: it is a parameter of
    every definition, given as a record of operations over a store state.
    Each [await] of the source is one application of such an operation;
    the store state is threaded explicitly and survives a raised
    exception, as in Python. *)

From Stdlib Require Import String Ascii List Bool Arith NArith Lia.
Import ListNotations.
Open Scope string_scope.
Open Scope list_scope.

(** ** Data model *)

(** One unit of conversation history. *)
Record Event := { event_id : string; content : string }.

(** The state mapping of a session ([dict[str, Any]]), in insertion order. *)
Definition StateDict := list (string * string).

(** [config: Optional[Any]] of [get_session]: opaque to the shim. *)
Definition Config := nat.

Record Session := {
  id : string;
  app_name : string;
  user_id : string;
  state : StateDict;
  events : list Event
}.

(** What [list_sessions] returns; the source reads its [sessions] field. *)
Record ListSessionsResponse := { sessions : list Session }.

(** ** Failures raised by a store, and awaited store calls *)

Inductive StoreError :=
| NotFound
| StoreUnavailable (detail : string)
| InvalidArgument (detail : string).

Inductive outcome (A : Type) :=
| Returned (a : A)
| Raised (e : StoreError).
Arguments Returned {A} a.
Arguments Raised {A} e.

(** A coroutine over the store: from a store state to what it returns or
    raises, and the store state it leaves. *)
Definition Async (St A : Type) := St -> outcome A * St.

Definition ret {St A} (a : A) : Async St A := fun s => (Returned a, s).

(** [await c] followed by the rest of the body: an exception raised by [c]
    leaves the body at once. *)
Definition await {St A B} (c : Async St A) (k : A -> Async St B) : Async St B :=
  fun s =>
    match c s with
    | (Returned a, s') => k a s'
    | (Raised e, s') => (Raised e, s')
    end.

Declare Scope async_scope.
Delimit Scope async_scope with async.
Notation "x <- 'await' c ;; k" := (await c (fun x => k))
  (at level 100, c at next level, right associativity) : async_scope.
Open Scope async_scope.

(** ** The store interface *)

Module BaseSessionService.

Record t (St : Type) := {
  create_session :
    string -> string -> option StateDict -> option string -> Async St Session;
  get_session :
    string -> string -> string -> option Config -> Async St Session;
  list_sessions : string -> string -> Async St ListSessionsResponse;
  delete_session : string -> string -> string -> Async St unit;
  append_event : Session -> Event -> Async St Event
}.
Arguments create_session {St} _ _ _ _ _ _.
Arguments get_session {St} _ _ _ _ _ _.
Arguments list_sessions {St} _ _ _ _.
Arguments delete_session {St} _ _ _ _ _.
Arguments append_event {St} _ _ _ _.

End BaseSessionService.

(** ** Python values handed to the constructor *)

Inductive PyObject (St : Type) :=
| PyService (svc : BaseSessionService.t St)
| PyNone
| PyStr (s : string)
| PyInt (n : N)
| PyDict (d : StateDict).
Arguments PyService {St} svc.
Arguments PyNone {St}.
Arguments PyStr {St} s.
Arguments PyInt {St} n.
Arguments PyDict {St} d.

(** The object seen as a [BaseSessionService], when it is an instance. *)
Definition as_BaseSessionService {St} (o : PyObject St)
    : option (BaseSessionService.t St) :=
  match o with
  | PyService svc => Some svc
  | _ => None
  end.

(** [isinstance(o, BaseSessionService)]. *)
Definition isinstance_BaseSessionService {St} (o : PyObject St) : bool :=
  match as_BaseSessionService o with
  | Some _ => true
  | None => false
  end.

Inductive constructed (A : Type) :=
| Instance (a : A)
| TypeError (msg : string).
Arguments Instance {A} a.
Arguments TypeError {A} msg.

(** ** The shim *)

Module ImplicitSessionService.

Record t (St : Type) := { _proxied_service : BaseSessionService.t St }.
Arguments _proxied_service {St} _.

Definition __init__ {St} (proxied_service : PyObject St) : constructed (t St) :=
  match as_BaseSessionService proxied_service with
  | None => TypeError "proxied_service must be an instance of BaseSessionService"
  | Some svc => Instance {| _proxied_service := svc |}
  end.

Definition get_session {St} (self : t St)
    (app_name user_id session_id : string) (config : option Config)
    : Async St Session :=
  sessions_list <- await
    BaseSessionService.list_sessions (_proxied_service self) app_name user_id ;;
  match sessions sessions_list with
  | first :: _ =>
      let existing_session_id := id first in
      session <- await
        BaseSessionService.get_session (_proxied_service self)
          app_name user_id existing_session_id config ;;
      ret session
  | [] =>
      session <- await
        BaseSessionService.create_session (_proxied_service self)
          app_name user_id None None ;;
      ret session
  end.

Definition create_session {St} (self : t St)
    (app_name user_id : string) (state : option StateDict)
    (session_id : option string) : Async St Session :=
  r <- await
    BaseSessionService.create_session (_proxied_service self)
      app_name user_id state session_id ;;
  ret r.

Definition list_sessions {St} (self : t St) (app_name user_id : string)
    : Async St ListSessionsResponse :=
  r <- await
    BaseSessionService.list_sessions (_proxied_service self) app_name user_id ;;
  ret r.

Definition delete_session {St} (self : t St)
    (app_name user_id session_id : string) : Async St unit :=
  _ <- await
    BaseSessionService.delete_session (_proxied_service self)
      app_name user_id session_id ;;
  ret tt.

Definition append_event {St} (self : t St) (session : Session) (event : Event)
    : Async St Event :=
  r <- await
    BaseSessionService.append_event (_proxied_service self) session event ;;
  ret r.

(** The shim subclasses [BaseSessionService]: it is a store itself. *)
Definition as_service {St} (self : t St) : BaseSessionService.t St :=
  {| BaseSessionService.create_session := create_session self;
     BaseSessionService.get_session := get_session self;
     BaseSessionService.list_sessions := list_sessions self;
     BaseSessionService.delete_session := delete_session self;
     BaseSessionService.append_event := append_event self |}.

End ImplicitSessionService.

(** The shim built over a store [svc]. *)
Definition proxy {St} (svc : BaseSessionService.t St)
    : ImplicitSessionService.t St :=
  {| ImplicitSessionService._proxied_service := svc |}.

(** ** Store calls as data, and a store that records them *)

Inductive Call :=
| CallCreate (app_name user_id : string) (state : option StateDict)
    (session_id : option string)
| CallGet (app_name user_id session_id : string) (config : option Config)
| CallList (app_name user_id : string)
| CallDelete (app_name user_id session_id : string)
| CallAppend (session : Session) (event : Event).

Inductive Reply :=
| RSession (s : Session)
| RListing (r : ListSessionsResponse)
| RNone
| REvent (e : Event).

Definition reply_of {A} (f : A -> Reply) (o : outcome A) : outcome Reply :=
  match o with
  | Returned a => Returned (f a)
  | Raised e => Raised e
  end.

(** One entry per store call: the call and what it returned or raised. *)
Definition LogEntry := (Call * outcome Reply)%type.

Definition logged {St A} (c : Call) (f : A -> Reply) (op : Async St A)
    : Async (St * list LogEntry) A :=
  fun sl =>
    let '(o, s') := op (fst sl) in
    (o, (s', snd sl ++ [(c, reply_of f o)])).

(** [recording svc] behaves as [svc] and appends every call made on it,
    with its outcome, to a log kept beside the store state. *)
Definition recording {St} (svc : BaseSessionService.t St)
    : BaseSessionService.t (St * list LogEntry) :=
  {| BaseSessionService.create_session := fun a u st sid =>
       logged (CallCreate a u st sid) RSession
         (BaseSessionService.create_session svc a u st sid);
     BaseSessionService.get_session := fun a u sid cfg =>
       logged (CallGet a u sid cfg) RSession
         (BaseSessionService.get_session svc a u sid cfg);
     BaseSessionService.list_sessions := fun a u =>
       logged (CallList a u) RListing
         (BaseSessionService.list_sessions svc a u);
     BaseSessionService.delete_session := fun a u sid =>
       logged (CallDelete a u sid) (fun _ => RNone)
         (BaseSessionService.delete_session svc a u sid);
     BaseSessionService.append_event := fun sess ev =>
       logged (CallAppend sess ev) REvent
         (BaseSessionService.append_event svc sess ev) |}.

(** Any of the five operations of a service, chosen by a [Call]. *)
Definition invoke {St} (svc : BaseSessionService.t St) (c : Call)
    : Async St Reply :=
  fun s =>
    match c with
    | CallCreate a u st sid =>
        let '(o, s') := BaseSessionService.create_session svc a u st sid s in
        (reply_of RSession o, s')
    | CallGet a u sid cfg =>
        let '(o, s') := BaseSessionService.get_session svc a u sid cfg s in
        (reply_of RSession o, s')
    | CallList a u =>
        let '(o, s') := BaseSessionService.list_sessions svc a u s in
        (reply_of RListing o, s')
    | CallDelete a u sid =>
        let '(o, s') := BaseSessionService.delete_session svc a u sid s in
        (reply_of (fun _ => RNone) o, s')
    | CallAppend sess ev =>
        let '(o, s') := BaseSessionService.append_event svc sess ev s in
        (reply_of REvent o, s')
    end.

Definition is_create (c : Call) : bool :=
  match c with CallCreate _ _ _ _ => true | _ => false end.

Definition is_get (c : Call) : bool :=
  match c with CallGet _ _ _ _ => true | _ => false end.

(** The calls of a log that are [create_session] calls. *)
Definition creations (log : list LogEntry) : list LogEntry :=
  filter (fun entry => is_create (fst entry)) log.

Definition failed (entry : LogEntry) : option StoreError :=
  match snd entry with
  | Raised e => Some e
  | Returned _ => None
  end.

(** ** What the shim expects of a store

    The store is not part of the repository; these are the properties of
    a session store that the claims about sequences of calls rest on.
    [live s a u] lists the identifiers of the sessions of [(a, u)] in
    listing order, [retired s a u] the identifiers deleted for [(a, u)]. *)



Record Lawful {St} (svc : BaseSessionService.t St)
    (live retired : St -> string -> string -> list string) : Prop := {
  law_list : forall a u s resp s',
    BaseSessionService.list_sessions svc a u s = (Returned resp, s') ->
    map id (sessions resp) = live s a u /\
    live s' a u = live s a u /\ retired s' a u = retired s a u;
  law_get : forall a u sid cfg s sess s',
    BaseSessionService.get_session svc a u sid cfg s = (Returned sess, s') ->
    id sess = sid /\ live s' a u = live s a u;
  law_create : forall a u st s sess s',
    BaseSessionService.create_session svc a u st None s = (Returned sess, s') ->
    ~ In (id sess) (retired s a u) /\
    live s' a u = live s a u ++ [id sess] /\
    (st = None -> state sess = []);
  law_delete : forall a u sid s s',
    BaseSessionService.delete_session svc a u sid s = (Returned tt, s') ->
    live s' a u = remove string_dec sid (live s a u) /\
    (In sid (live s a u) -> In sid (retired s' a u))
}.

(** ** A reference store kept in memory

    An instance of the store interface with the capabilities the
    specification lists for a session store (create, fetch that fails with
    [NotFound] when absent, listing of identity-only summaries, delete,
    append). It is what the scenarios run on, and it shows that the
    expectations above can be met. Sessions are kept in creation order. [offline] makes every call raise
    [StoreUnavailable]; [tombstones] remembers deleted identifiers so that
    a generated identifier is never one that was used before. *)

Module InMemory.

Record Store := {
  stored : list Session;
  tombstones : list string;
  offline : bool
}.

Definition belongs (a u : string) (x : Session) : bool :=
  String.eqb a (app_name x) && String.eqb u (user_id x).

Definition is_session (a u sid : string) (x : Session) : bool :=
  belongs a u x && String.eqb sid (id x).

Fixpoint pad (n : nat) : string :=
  match n with
  | O => EmptyString
  | S k => String "s"%char (pad k)
  end.

Definition longest (l : list string) : nat :=
  fold_right Nat.max 0 (map String.length l).

(** An identifier longer than every identifier stored or deleted. *)
Definition fresh_id (s : Store) : string :=
  pad (S (longest (map id (stored s) ++ tombstones s))).

Definition stub (x : Session) : Session :=
  {| id := id x; app_name := app_name x; user_id := user_id x;
     state := []; events := [] |}.

Definition recent (cfg : option Config) (x : Session) : Session :=
  match cfg with
  | None => x
  | Some n =>
      {| id := id x; app_name := app_name x; user_id := user_id x;
         state := state x;
         events := skipn (List.length (events x) - n) (events x) |}
  end.

Definition down {A} : Async Store A :=
  fun s => (Raised (StoreUnavailable "store is offline"), s).

Definition add (a u : string) (st : option StateDict) (sid : string)
    : Async Store Session :=
  fun s =>
    let x := {| id := sid; app_name := a; user_id := u;
                state := match st with Some d => d | None => [] end;
                events := [] |} in
    (Returned x,
     {| stored := stored s ++ [x]; tombstones := tombstones s;
        offline := offline s |}).

Definition create_session (a u : string) (st : option StateDict)
    (sid : option string) : Async Store Session :=
  fun s =>
    if offline s then down s else
    match sid with
    | None => add a u st (fresh_id s) s
    | Some i =>
        if existsb (is_session a u i) (stored s)
        then (Raised (InvalidArgument "session already exists"), s)
        else add a u st i s
    end.

Definition get_session (a u sid : string) (cfg : option Config)
    : Async Store Session :=
  fun s =>
    if offline s then down s else
    match find (is_session a u sid) (stored s) with
    | Some x => (Returned (recent cfg x), s)
    | None => (Raised NotFound, s)
    end.

Definition list_sessions (a u : string) : Async Store ListSessionsResponse :=
  fun s =>
    if offline s then down s else
    (Returned {| sessions := map stub (filter (belongs a u) (stored s)) |}, s).

Definition delete_session (a u sid : string) : Async Store unit :=
  fun s =>
    if offline s then down s else
    (Returned tt,
     {| stored := filter (fun x => negb (is_session a u sid x)) (stored s);
        tombstones := sid :: tombstones s;
        offline := offline s |}).

Definition append_event (sess : Session) (ev : Event) : Async Store Event :=
  fun s =>
    if offline s then down s else
    (Returned ev,
     {| stored :=
          map (fun x =>
                 if is_session (app_name sess) (user_id sess) (id sess) x
                 then {| id := id x; app_name := app_name x;
                         user_id := user_id x; state := state x;
                         events := events x ++ [ev] |}
                 else x) (stored s);
        tombstones := tombstones s;
        offline := offline s |}).

Definition service : BaseSessionService.t Store :=
  {| BaseSessionService.create_session := create_session;
     BaseSessionService.get_session := get_session;
     BaseSessionService.list_sessions := list_sessions;
     BaseSessionService.delete_session := delete_session;
     BaseSessionService.append_event := append_event |}.

Definition live (s : Store) (a u : string) : list string :=
  map id (filter (belongs a u) (stored s)).

Definition retired (s : Store) (_ _ : string) : list string := tombstones s.

Definition empty : Store :=
  {| stored := []; tombstones := []; offline := false |}.

End InMemory.

(** ** The publish tool of [agent/agent.py]

    The Pub/Sub client library is a parameter: constructing a client,
    publishing and waiting on the returned future are calls into it that
    may raise. Logging calls have no effect on the result and are left
    out. *)

Module Agent.

(** A raised Python exception: its class, and whether that class derives
    from [Exception] (what [except Exception] tests). *)
Record PyExc := { exc_class : string; is_Exception : bool }.

Inductive completion (A : Type) :=
| Return (a : A)
| Raise (e : PyExc).
Arguments Return {A} a.
Arguments Raise {A} e.

Definition Dict := list (string * string).

Record BatchSettings := { max_messages : nat }.

Record PubSub (World Publisher Future : Type) := {
  PublisherClient : BatchSettings -> World -> completion Publisher * World;
  publish :
    Publisher -> string -> list N -> World -> completion Future * World;
  result : Future -> World -> completion string * World
}.
Arguments PublisherClient {World Publisher Future} _ _ _.
Arguments publish {World Publisher Future} _ _ _ _ _.
Arguments result {World Publisher Future} _ _ _.

(** The process: the module-level cache [_publishers] and the world the
    client library acts on. *)
Record Process (World Publisher : Type) := {
  _publishers : list (string * Publisher);
  world : World
}.
Arguments _publishers {World Publisher} _.
Arguments world {World Publisher} _.

Definition UnicodeEncodeError : PyExc :=
  {| exc_class := "UnicodeEncodeError"; is_Exception := true |}.

(** UTF-8 bytes of one code point; a surrogate cannot be encoded. *)
Definition encode_char (c : N) : option (list N) :=
  if (c <? 128)%N then Some [c]
  else if (c <? 2048)%N then
    Some [N.lor 192 (N.shiftr c 6); N.lor 128 (N.land c 63)]
  else if (c <? 65536)%N then
    if ((55296 <=? c) && (c <=? 57343))%N then None
    else Some [N.lor 224 (N.shiftr c 12);
               N.lor 128 (N.land (N.shiftr c 6) 63);
               N.lor 128 (N.land c 63)]
  else
    Some [N.lor 240 (N.shiftr c 18);
          N.lor 128 (N.land (N.shiftr c 12) 63);
          N.lor 128 (N.land (N.shiftr c 6) 63);
          N.lor 128 (N.land c 63)].

(** [json_payload.encode("utf-8")] on the code points of the string. *)
Fixpoint encode (s : list N) : completion (list N) :=
  match s with
  | [] => Return []
  | c :: rest =>
      match encode_char c, encode rest with
      | Some b, Return bs => Return (b ++ bs)
      | None, _ => Raise UnicodeEncodeError
      | _, Raise e => Raise e
      end
  end.

Fixpoint dict_get {V} (k : string) (d : list (string * V)) : option V :=
  match d with
  | [] => None
  | (k', v) :: rest => if String.eqb k k' then Some v else dict_get k rest
  end.

Section Tool.
Context {World Publisher Future : Type}.
Variable pubsub_v1 : PubSub World Publisher Future.

(** The body of the [try]: encode, publish, wait for the future. *)
Definition try_body (publisher : Publisher) (topic : string)
    (json_payload : list N) (w : World) : completion unit * World :=
  match encode json_payload with
  | Raise e => (Raise e, w)
  | Return data =>
      match publish pubsub_v1 publisher topic data w with
      | (Raise e, w1) => (Raise e, w1)
      | (Return future, w1) =>
          match result pubsub_v1 future w1 with
          | (Raise e, w2) => (Raise e, w2)
          | (Return _, w2) => (Return tt, w2)
          end
      end
  end.

(** The cached client of the topic, or a new one that is then cached. *)
Definition publisher_for (topic : string) (p : Process World Publisher)
    : completion Publisher * Process World Publisher :=
  match dict_get topic (_publishers p) with
  | Some publisher => (Return publisher, p)
  | None =>
      let custom_batch_settings := {| max_messages := 1 |} in
      match PublisherClient pubsub_v1 custom_batch_settings (world p) with
      | (Raise e, w) =>
          (Raise e, {| _publishers := _publishers p; world := w |})
      | (Return publisher, w) =>
          (Return publisher,
           {| _publishers := _publishers p ++ [(topic, publisher)];
              world := w |})
      end
  end.

Definition publish_record (topic : string) (json_payload : list N)
    (p : Process World Publisher)
    : completion Dict * Process World Publisher :=
  match publisher_for topic p with
  | (Raise e, p1) => (Raise e, p1)
  | (Return publisher, p1) =>
      match try_body publisher topic json_payload (world p1) with
      | (Raise e, w) =>
          let p2 := {| _publishers := _publishers p1; world := w |} in
          if is_Exception e then (Return [], p2) else (Raise e, p2)
      | (Return _, w) =>
          (Return [], {| _publishers := _publishers p1; world := w |})
      end
  end.

End Tool.

(** A client library for concrete runs: the world says whether
    credentials are present, whether the service accepts messages, and
    whether the wait is interrupted from the keyboard; it collects the
    published messages. *)
Record TestWorld := {
  credentials : bool;
  accepting : bool;
  interrupted : bool;
  published : list (string * list N)
}.

Definition DefaultCredentialsError : PyExc :=
  {| exc_class := "DefaultCredentialsError"; is_Exception := true |}.
Definition ServiceUnavailable : PyExc :=
  {| exc_class := "ServiceUnavailable"; is_Exception := true |}.
Definition KeyboardInterrupt : PyExc :=
  {| exc_class := "KeyboardInterrupt"; is_Exception := false |}.

Definition test_pubsub : PubSub TestWorld BatchSettings bool :=
  {| PublisherClient := fun bs w =>
       if credentials w then (Return bs, w)
       else (Raise DefaultCredentialsError, w);
     publish := fun _ topic data w =>
       if accepting w
       then (Return true,
             {| credentials := credentials w; accepting := accepting w;
                interrupted := interrupted w;
                published := published w ++ [(topic, data)] |})
       else (Return false, w);
     result := fun ok w =>
       if interrupted w then (Raise KeyboardInterrupt, w)
       else if ok then (Return "message-id", w)
       else (Raise ServiceUnavailable, w) |}.

End Agent.

(** ** Scenarios *)

Module Scenario.

Definition hello : Event := {| event_id := "e1"; content := "hello" |}.

Definition s1 : Session :=
  {| id := "s1"; app_name := "fraud"; user_id := "bob";
     state := []; events := [hello] |}.

Definition s2 : Session :=
  {| id := "s2"; app_name := "fraud"; user_id := "bob";
     state := []; events := [] |}.

(** Two sessions of "bob": "s1" created first and holding one event,
    then "s2". *)
Definition bob_store : InMemory.Store :=
  {| InMemory.stored := [s1; s2];
     InMemory.tombstones := [];
     InMemory.offline := false |}.

(** The same store once "s1" has been deleted. *)
Definition bob_store_without_s1 : InMemory.Store :=
  {| InMemory.stored := [s2];
     InMemory.tombstones := ["s1"];
     InMemory.offline := false |}.

(** The session the reference store creates for "alice" on first
    contact, and the store that then holds it. *)
Definition alice_session : Session :=
  {| id := "s"; app_name := "fraud"; user_id := "alice";
     state := []; events := [] |}.

Definition alice_store : InMemory.Store :=
  {| InMemory.stored := [alice_session];
     InMemory.tombstones := [];
     InMemory.offline := false |}.

(** "alice" once her only session has been deleted, and the session the
    reference store then creates for her. *)
Definition alice_store_after_delete : InMemory.Store :=
  {| InMemory.stored := [];
     InMemory.tombstones := ["s"];
     InMemory.offline := false |}.

Definition alice_second_session : Session :=
  {| id := "ss"; app_name := "fraud"; user_id := "alice";
     state := []; events := [] |}.

(** A store that lists a session it cannot fetch. *)
Definition stale_listing : BaseSessionService.t unit :=
  {| BaseSessionService.create_session := fun _ _ _ _ s =>
       (Raised (StoreUnavailable "read-only"), s);
     BaseSessionService.get_session := fun _ _ _ _ s => (Raised NotFound, s);
     BaseSessionService.list_sessions := fun _ _ s =>
       (Returned {| sessions := [InMemory.stub s1] |}, s);
     BaseSessionService.delete_session := fun _ _ _ s => (Returned tt, s);
     BaseSessionService.append_event := fun _ ev s => (Returned ev, s) |}.

(** The code points of the payload [{}], and of a payload holding a
    lone surrogate. *)
Definition empty_object : list N := [123; 125]%N.
Definition lone_surrogate : list N := [34; 55296; 34]%N.

Definition topic : string := "projects/p/topics/fraud-example-augmented-transactions".

Definition world (creds accept intr : bool) : Agent.TestWorld :=
  {| Agent.credentials := creds; Agent.accepting := accept;
     Agent.interrupted := intr; Agent.published := [] |}.

Definition fresh_process (w : Agent.TestWorld)
    : Agent.Process Agent.TestWorld Agent.BatchSettings :=
  {| Agent._publishers := []; Agent.world := w |}.

End Scenario.

(** ** What a call of the shim may ask of the store *)

(** The calls [get_session] of the shim may make for [(a, u)] with the
    configuration [cfg]: a listing, a fetch with that configuration, or a
    creation with no initial state and no chosen identifier; all for
    [(a, u)]. *)
Definition within_get_session (a u : string) (cfg : option Config) (c : Call)
    : Prop :=
  match c with
  | CallList a' u' => a' = a /\ u' = u
  | CallGet a' u' _ cfg' => a' = a /\ u' = u /\ cfg' = cfg
  | CallCreate a' u' st sid => a' = a /\ u' = u /\ st = None /\ sid = None
  | CallDelete _ _ _ => False
  | CallAppend _ _ => False
  end.

(** ** Calls into the Pub/Sub client library as data *)

Module AgentCalls.
Import Agent.

Inductive PubCall (Publisher Future : Type) :=
| NewClient (batch_settings : BatchSettings) (r : completion Publisher)
| Publish (publisher : Publisher) (topic : string) (data : list N)
    (r : completion Future)
| Wait (future : Future) (r : completion string).
Arguments NewClient {Publisher Future} batch_settings r.
Arguments Publish {Publisher Future} publisher topic data r.
Arguments Wait {Publisher Future} future r.

(** [recording ps] behaves as the client library [ps] and appends every
    call made into it, with its outcome, to a log kept beside the world. *)
Definition recording {World Publisher Future : Type}
    (ps : PubSub World Publisher Future)
    : PubSub (World * list (PubCall Publisher Future)) Publisher Future :=
  {| PublisherClient := fun bs wl =>
       let '(r, w) := PublisherClient ps bs (fst wl) in
       (r, (w, snd wl ++ [NewClient bs r]));
     publish := fun publisher topic data wl =>
       let '(r, w) := publish ps publisher topic data (fst wl) in
       (r, (w, snd wl ++ [Publish publisher topic data r]));
     result := fun future wl =>
       let '(r, w) := result ps future (fst wl) in
       (r, (w, snd wl ++ [Wait future r])) |}.

Definition is_new_client {Publisher Future} (c : PubCall Publisher Future)
    : bool :=
  match c with NewClient _ _ => true | _ => false end.

Definition is_publish {Publisher Future} (c : PubCall Publisher Future)
    : bool :=
  match c with Publish _ _ _ _ => true | _ => false end.

(** A process over the recording library, with an empty log. *)
Definition observed {World Publisher : Type} (Future : Type)
    (p : Process World Publisher)
    : Process (World * list (PubCall Publisher Future)) Publisher :=
  {| _publishers := _publishers p; world := (world p, []) |}.


(** A code point in the surrogate range. *)
Definition is_surrogate (c : N) : bool :=
  ((55296 <=? c) && (c <=? 57343))%N.

End AgentCalls.

(** Whether a recorded call into the client library raised. *)
Definition call_raised {Publisher Future} (c : AgentCalls.PubCall Publisher Future)
    : bool :=
  match c with
  | AgentCalls.NewClient _ (Agent.Raise _) => true
  | AgentCalls.Publish _ _ _ (Agent.Raise _) => true
  | AgentCalls.Wait _ (Agent.Raise _) => true
  | _ => false
  end.

(** ** Command-line scripts: shared notions *)

Module Script.

(** A raised exception: its class, and its message [str(e)]. *)
Record Exc := { exc : Agent.PyExc; message : string }.

Inductive result (A : Type) :=
| Return (a : A)
| Raise (e : Exc).
Arguments Return {A} a.
Arguments Raise {A} e.

Inductive stream := stdout | stderr.

(** What [print] has written, in order: the stream and the line. *)
Definition Output := list (stream * string).

(** How [main] ends: it returns, it leaves through [sys.exit(status)], or
    an exception escapes it. *)
Inductive ending :=
| Returns
| Exits (status : nat)
| Uncaught (e : Exc).

(** [s.endswith(suffix)]. *)
Fixpoint endswith (s suffix : string) : bool :=
  if String.eqb s suffix then true
  else match s with
       | EmptyString => false
       | String _ rest => endswith rest suffix
       end.

(** [needle in haystack] on strings. *)
Fixpoint contains (needle haystack : string) : bool :=
  if String.prefix needle haystack then true
  else match haystack with
       | EmptyString => false
       | String _ rest => contains needle rest
       end.

(** [d[k] = v] on a dictionary kept in insertion order. *)
Fixpoint dict_set {V} (k : string) (v : V) (d : list (string * V))
    : list (string * V) :=
  match d with
  | [] => [(k, v)]
  | (k', v') :: rest =>
      if String.eqb k k' then (k, v) :: rest else (k', v') :: dict_set k v rest
  end.

Definition KeyError (key : string) : Exc :=
  {| exc := {| Agent.exc_class := "KeyError"; Agent.is_Exception := true |};
     message := ("'" ++ key ++ "'")%string |}.

End Script.

(** ** [delete.py] *)

Module Delete.
Import Script.

(** A deployed agent as [agent_engines.list()] yields it. *)
Record App := { name : string; resource : nat }.

(** The iteration over [agent_engines.list()]: it yields agents one at a
    time and then stops, or raises while fetching the next one. *)
Inductive Listing :=
| Stop
| Yield (app : App) (rest : Listing)
| Throw (e : Exc).

(** The calls the script makes into the Vertex AI SDK. *)
Record Sdk (World : Type) := {
  vertexai_init : string -> string -> World -> result unit * World;
  agent_engines_list : World -> result Listing * World;
  agent_delete : App -> bool -> World -> result unit * World
}.
Arguments vertexai_init {World} _ _ _ _.
Arguments agent_engines_list {World} _ _.
Arguments agent_delete {World} _ _ _ _.

Record Process (World : Type) := { out : Output; world : World }.
Arguments out {World} _.
Arguments world {World} _.

Definition print {World} (to : stream) (line : string) (p : Process World)
    : Process World :=
  {| out := out p ++ [(to, line)]; world := world p |}.

Definition with_world {World} (p : Process World) (w : World)
    : Process World :=
  {| out := out p; world := w |}.

(** The test of line 49 on the name of a listed agent. *)
Definition is_target (short_agent_id : string) (app : App) : bool :=
  endswith (name app) ("/" ++ short_agent_id)%string
  || String.eqb (name app) short_agent_id.

(** The [for] loop of lines 42-51: the first listed agent that passes the
    test, with one debugging line per agent looked at. *)
Fixpoint search {World} (short_agent_id : string) (l : Listing)
    (p : Process World) : result (option App) * Process World :=
  match l with
  | Stop => (Return None, p)
  | Throw e => (Raise e, p)
  | Yield app rest =>
      let p1 := print stdout ("DEBUG: Checking agent: " ++ name app)%string p in
      if is_target short_agent_id app then (Return (Some app), p1)
      else search short_agent_id rest p1
  end.

Section Main.
Context {World : Type}.
Variable sdk : Sdk World.

(** The body of the [try] of lines 30-65. *)
Definition try_body (project_id location short_agent_id : string)
    (p : Process World) : result unit * Process World :=
  match vertexai_init sdk project_id location (world p) with
  | (Raise e, w) => (Raise e, with_world p w)
  | (Return _, w) =>
      let p1 := print stdout "Searching for agent by short ID..."
                  (with_world p w) in
      match agent_engines_list sdk (world p1) with
      | (Raise e, w1) => (Raise e, with_world p1 w1)
      | (Return apps, w1) =>
          match search short_agent_id apps (with_world p1 w1) with
          | (Raise e, p2) => (Raise e, p2)
          | (Return None, p2) =>
              (Return tt,
               print stdout
                 ("⚠️ Agent with short ID '" ++ short_agent_id
                  ++ "' not found. Nothing to delete.")%string p2)
          | (Return (Some target_agent), p2) =>
              let p3 := print stdout
                          ("✅ Found agent: " ++ name target_agent
                           ++ ". Deleting resource...")%string p2 in
              match agent_delete sdk target_agent true (world p3) with
              | (Raise e, w2) => (Raise e, with_world p3 w2)
              | (Return _, w2) =>
                  (Return tt,
                   print stdout
                     ("✅ Agent '" ++ name target_agent
                      ++ "' and all associated resources deleted successfully.")%string
                     (with_world p3 w2))
              end
          end
      end
  end.

(** The [except Exception as e] handler of lines 67-75. *)
Definition handler (project_id : string) (e : Exc) (p : Process World)
    : ending * Process World :=
  let error_message := message e in
  if contains "Permission denied" error_message then
    (Exits 1,
     print stderr ("Original Error: " ++ error_message)%string
       (print stdout
          ("❌ PERMISSION DENIED: Please ensure the user running this script has the 'roles/aiplatform.admin' role on project '"
           ++ project_id ++ "'.")%string p))
  else
    (Exits 1,
     print stderr
       ("❌ An error occurred during agent deletion: " ++ message e)%string p).

Definition main (argv : list string) (p : Process World)
    : ending * Process World :=
  match argv with
  | [_; project_id; location; short_agent_id] =>
      let p1 :=
        print stdout ("Searching for short Agent ID: " ++ short_agent_id)%string
          (print stdout ("Location: " ++ location)%string
             (print stdout ("Project ID: " ++ project_id)%string
                (print stdout "--- Attempting to Delete Fraud Agent ---" p))) in
      match try_body project_id location short_agent_id p1 with
      | (Return _, p2) => (Returns, p2)
      | (Raise e, p2) =>
          if Agent.is_Exception (exc e) then handler project_id e p2
          else (Uncaught e, p2)
      end
  | _ =>
      (Exits 1,
       print stderr
         "Usage: python delete_agent.py <PROJECT_ID> <LOCATION> <AGENT_SHORT_ID>"
         p)
  end.

End Main.

(** The SDK calls as data, each with whether it returned. *)
Inductive SdkCall :=
| SdkInit (project location : string) (returned : bool)
| SdkList (returned : bool)
| SdkDelete (app : App) (force : bool) (returned : bool).

Definition returned {A} (r : result A) : bool :=
  match r with Return _ => true | Raise _ => false end.

(** [recording sdk] behaves as [sdk] and logs every call made into it. *)
Definition recording {World} (sdk : Sdk World) : Sdk (World * list SdkCall) :=
  {| vertexai_init := fun project location wl =>
       let '(r, w) := vertexai_init sdk project location (fst wl) in
       (r, (w, snd wl ++ [SdkInit project location (returned r)]));
     agent_engines_list := fun wl =>
       let '(r, w) := agent_engines_list sdk (fst wl) in
       (r, (w, snd wl ++ [SdkList (returned r)]));
     agent_delete := fun app force wl =>
       let '(r, w) := agent_delete sdk app force (fst wl) in
       (r, (w, snd wl ++ [SdkDelete app force (returned r)])) |}.

Definition observed {World} (p : Process World)
    : Process (World * list SdkCall) :=
  {| out := out p; world := (world p, []) |}.

Definition is_delete (c : SdkCall) : bool :=
  match c with SdkDelete _ _ _ => true | _ => false end.

Definition call_returned (c : SdkCall) : bool :=
  match c with
  | SdkInit _ _ r => r
  | SdkList r => r
  | SdkDelete _ _ r => r
  end.

(** The agents an iteration yields before it stops or raises. *)
Fixpoint yielded (l : Listing) : list App :=
  match l with
  | Yield app rest => app :: yielded rest
  | _ => []
  end.

(** The text after the last slash of a resource name (the whole name when
    it has no slash). *)
Fixpoint last_segment (s : string) : string :=
  match s with
  | EmptyString => EmptyString
  | String c rest =>
      if contains "/" rest then last_segment rest
      else if Ascii.eqb c "/"%char then rest
      else s
  end.

End Delete.

(** What the loop of [delete.py] finds in a listing, apart from what it
    prints. *)
Definition delete_target (short_agent_id : string) (l : Delete.Listing)
    : Script.result (option Delete.App) :=
  fst (Delete.search short_agent_id l {| Delete.out := []; Delete.world := tt |}).

(** The SDK calls [main] of [delete.py] makes for given arguments, from
    what the SDK answers. *)
Definition delete_calls {World} (sdk : Delete.Sdk World)
    (project_id location short_agent_id : string) (w : World)
    : list Delete.SdkCall :=
  let r0 := Delete.vertexai_init sdk project_id location w in
  Delete.SdkInit project_id location (Delete.returned (fst r0)) ::
  match fst r0 with
  | Script.Raise _ => []
  | Script.Return _ =>
      let r1 := Delete.agent_engines_list sdk (snd r0) in
      Delete.SdkList (Delete.returned (fst r1)) ::
      match fst r1 with
      | Script.Raise _ => []
      | Script.Return l =>
          match delete_target short_agent_id l with
          | Script.Return (Some app) =>
              [Delete.SdkDelete app true
                 (Delete.returned
                    (fst (Delete.agent_delete sdk app true (snd r1))))]
          | _ => []
          end
      end
  end.


(** ** [create_root_agent] of [agent/agent.py] *)

Module AgentFactory.

Definition MODEL_NAME : string := "gemini-2.5-flash".

(** The arguments [LlmAgent] is constructed with; a tool is named by the
    function it wraps. *)
Record LlmAgent := {
  model : string;
  name : string;
  description : string;
  global_instruction : string;
  tools : list string
}.

(** A double quote and a line feed, for the text of the instruction. *)
Definition dq : string := String (Ascii.ascii_of_nat 34) EmptyString.
Definition nl : string := String (Ascii.ascii_of_nat 10) EmptyString.

Definition topic_path (project_id topic_id : string) : string :=
  ("projects/" ++ project_id ++ "/topics/" ++ topic_id)%string.

(** The f-string of lines 95-111, the two topic paths filled in. *)
Definition global_instruction_template
    (augmented_topic_path compromised_topic_path : string) : string :=
  String.concat ""
    [
      nl;
      "        You are an expert agent at detecting fraud in financial transactions. You will be given JSON records"; nl;
      "        for credit card transactions where you are trying to determine the likelihood of fraud. Possible indicators of fraud:"; nl;
      "        - A sequence of transactions for the same credit card using IP addresses from different countries."; nl;
      "        - A sequence of transactions where the first is a small amount of money to a charity and then a large amount of money to a store."; nl;
      "        - Anything else you can find as an expert in fraud detection using resources available to you on the web."; nl;
      nl;
      "        For each transaction:"; nl;
      "        1. Evaluate the likelihood of it being a fraudulent transaction and give it a score between 0.0 and 1.0."; nl;
      "        2. Augment the input with two new fields: 'fraud_likelihood' set to this result of this evaluation and 'fraud_reason' with a short description of the reason for the fraud likelihood."; nl;
      "        3. Use "; dq; "publish_record"; dq;
      " to publish this augmented JSON object to the topic ";
      augmented_topic_path; nl;
      "        4. If the evaluation of fraud from step 1 is > 0.7, use "; dq;
      "publish_record"; dq;
      " to publish a JSON object containing the timestamp, credit card number, fraud likelihood, and fraud reason to the topic ";
      compromised_topic_path; "."; nl;
      "        5. Return the augmented input from step #3."; nl;
      nl;
      "        Sample input: {"; dq; "credit_card_number"; dq; ": "; dq;
      "1234567812345678"; dq; ", "; dq; "receiver"; dq; ": "; dq; "Macy's";
      dq; ", "; dq; "amount"; dq; ": 100.05, "; dq; "ip_address"; dq; ": ";
      dq; "68.45.25.58"; dq; ", "; dq; "timestamp"; dq; ":"; dq;
      "2025-09-18T11:47:02.814"; dq; "}"; nl;
      "        Sample output: {"; dq; "credit_card_number"; dq; ": "; dq;
      "1234567812345678"; dq; ", "; dq; "receiver"; dq; ": "; dq; "Macy's";
      dq; ", "; dq; "amount"; dq; ": 100.05, "; dq; "ip_address"; dq; ": ";
      dq; "68.45.25.58"; dq; ", "; dq; "timestamp"; dq; ":"; dq;
      "2025-09-18T11:47:02.814"; dq; ", "; dq; "fraud_likelihood"; dq;
      ": 0.8, "; dq; "fraud_reason"; dq; ": "; dq;
      "Multiple transactions from different countries"; dq; "}"; nl;
      "        "
    ].

Definition create_root_agent
    (project_id augmented_topic_id compromised_topic_id : string) : LlmAgent :=
  let augmented_topic_path := topic_path project_id augmented_topic_id in
  let compromised_topic_path := topic_path project_id compromised_topic_id in
  {| model := MODEL_NAME;
     name := "FraudDetector";
     description := "Determines risk of fraud in transactions.";
     global_instruction :=
       global_instruction_template augmented_topic_path compromised_topic_path;
     tools := ["publish_record"] |}.

End AgentFactory.

(** ** [deploy.py] *)

Module Deploy.
Import Script.

Definition AUGMENTED_TOPIC_ID : string := "fraud-example-augmented-transactions".
Definition COMPROMISED_TOPIC_ID : string := "fraud-example-compromised-cards".

(** The module globals [_session_service] and [_CONFIG]. *)
Record Globals (St : Type) := {
  _session_service : option (ImplicitSessionService.t St);
  _CONFIG : list (string * string)
}.
Arguments _session_service {St} _.
Arguments _CONFIG {St} _.

Definition PyTypeError (msg : string) : Exc :=
  {| exc := {| Agent.exc_class := "TypeError"; Agent.is_Exception := true |};
     message := msg |}.

(** [d[key]] on a dictionary. *)
Definition subscript {V} (d : list (string * V)) (key : string) : result V :=
  match Agent.dict_get key d with
  | Some v => Return v
  | None => Raise (KeyError key)
  end.

Section SessionService.
Context {St : Type}.

(** The constructor of the Vertex AI session service, from the project
    and the location. *)
Variable VertexAiSessionService :
  string -> string -> result (BaseSessionService.t St).

Definition get_session_service (g : Globals St)
    : result (ImplicitSessionService.t St) * Globals St :=
  match _session_service g with
  | Some service => (Return service, g)
  | None =>
      match subscript (_CONFIG g) "PROJECT_ID" with
      | Raise e => (Raise e, g)
      | Return project_id =>
          match subscript (_CONFIG g) "REGION" with
          | Raise e => (Raise e, g)
          | Return location =>
              match VertexAiSessionService project_id location with
              | Raise e => (Raise e, g)
              | Return vertex_session_service =>
                  match ImplicitSessionService.__init__
                          (PyService vertex_session_service) with
                  | TypeError msg => (Raise (PyTypeError msg), g)
                  | Instance service =>
                      (Return service,
                       {| _session_service := Some service;
                          _CONFIG := _CONFIG g |})
                  end
              end
          end
      end
  end.

End SessionService.

(** A value of a parsed TOML document. *)
#[warnings="-register-all"]
Inductive Toml :=
| TString (s : string)
| TInteger (n : nat)
| TBoolean (b : bool)
| TOther (type_name : string)
| TArray (items : list Toml)
| TTable (entries : list (string * Toml)).

(** [v[key]] on a parsed value, with a string key. *)
Definition toml_subscript (v : Toml) (key : string) : result Toml :=
  match v with
  | TTable entries => subscript entries key
  | TString _ => Raise (PyTypeError "string indices must be integers, not 'str'")
  | TArray _ =>
      Raise (PyTypeError "list indices must be integers or slices, not str")
  | TInteger _ => Raise (PyTypeError "'int' object is not subscriptable")
  | TBoolean _ => Raise (PyTypeError "'bool' object is not subscriptable")
  | TOther type_name =>
      Raise (PyTypeError ("'" ++ type_name ++ "' object is not subscriptable")%string)
  end.

(** The calls the script makes outside itself: the Vertex AI SDK, and
    reading and parsing [pyproject.toml]. *)
Record Sdk (St World App Remote : Type) := {
  vertexai_init : string -> string -> string -> World -> result unit * World;
  AdkApp :
    AgentFactory.LlmAgent -> bool ->
    (Globals St -> result (ImplicitSessionService.t St) * Globals St) ->
    World -> result App * World;
  read_pyproject : World -> result (list (string * Toml)) * World;
  agent_engines_create :
    App -> string -> Toml -> list string -> World -> result Remote * World;
  display_name : Remote -> string
}.
Arguments vertexai_init {St World App Remote} _ _ _ _ _.
Arguments AdkApp {St World App Remote} _ _ _ _ _.
Arguments read_pyproject {St World App Remote} _ _.
Arguments agent_engines_create {St World App Remote} _ _ _ _ _ _.
Arguments display_name {St World App Remote} _ _.

Record Process (St World : Type) := {
  out : Output;
  globals : Globals St;
  world : World
}.
Arguments out {St World} _.
Arguments globals {St World} _.
Arguments world {St World} _.

Definition print {St World} (to : stream) (line : string)
    (p : Process St World) : Process St World :=
  {| out := out p ++ [(to, line)]; globals := globals p; world := world p |}.

Definition with_world {St World} (p : Process St World) (w : World)
    : Process St World :=
  {| out := out p; globals := globals p; world := w |}.

(** [_CONFIG[key] = value]. *)
Definition set_config {St World} (key value : string) (p : Process St World)
    : Process St World :=
  {| out := out p;
     globals := {| _session_service := _session_service (globals p);
                   _CONFIG := dict_set key value (_CONFIG (globals p)) |};
     world := world p |}.

Section Main.
Context {St World App Remote : Type}.
Variable VertexAiSessionService :
  string -> string -> result (BaseSessionService.t St).
Variable sdk : Sdk St World App Remote.

Definition load_requirements (w : World) : result Toml * World :=
  match read_pyproject sdk w with
  | (Raise e, w1) => (Raise e, w1)
  | (Return pyproject_data, w1) =>
      match subscript pyproject_data "project" with
      | Raise e => (Raise e, w1)
      | Return project => (toml_subscript project "dependencies", w1)
      end
  end.

Definition main (argv : list string) (p : Process St World)
    : ending * Process St World :=
  match argv with
  | [_; project_id; location] =>
      let staging_bucket := ("gs://fraud-example-staging-" ++ project_id)%string in
      let p1 :=
        set_config "STAGING_BUCKET" staging_bucket
          (set_config "REGION" location
             (set_config "PROJECT_ID" project_id p)) in
      let p2 :=
        print stdout ("Staging Bucket: " ++ staging_bucket)%string
          (print stdout ("Region: " ++ location)%string
             (print stdout ("Project ID: " ++ project_id)%string
                (print stdout "--- Deploying Fraud Agent ---" p1))) in
      match vertexai_init sdk project_id location staging_bucket (world p2) with
      | (Raise e, w) => (Uncaught e, with_world p2 w)
      | (Return _, w) =>
          let root_agent :=
            AgentFactory.create_root_agent project_id
              AUGMENTED_TOPIC_ID COMPROMISED_TOPIC_ID in
          let p3 := print stdout "Starting AdkApp initialization..."
                      (with_world p2 w) in
          match AdkApp sdk root_agent true
                  (get_session_service VertexAiSessionService) (world p3) with
          | (Raise e, w1) => (Uncaught e, with_world p3 w1)
          | (Return app, w1) =>
              match load_requirements w1 with
              | (Raise e, w2) => (Uncaught e, with_world p3 w2)
              | (Return requirements, w2) =>
                  match agent_engines_create sdk app "Fraud Agent" requirements
                          ["implicit_session_service.py"; "./agent"] w2 with
                  | (Raise e, w3) => (Uncaught e, with_world p3 w3)
                  | (Return remote_app, w3) =>
                      (Returns,
                       print stdout
                         ("Remote agent created/updated successfully: "
                          ++ display_name sdk remote_app)%string
                         (with_world p3 w3))
                  end
              end
          end
      end
  | _ =>
      (Exits 1,
       print stderr "Usage: python deploy.py <PROJECT_ID> <REGION>" p)
  end.

End Main.

(** The calls of [main] as data, each with whether it returned. *)
Inductive SdkCall (App : Type) :=
| SdkInit (project location staging_bucket : string) (returned : bool)
| SdkAdkApp (agent : AgentFactory.LlmAgent) (enable_tracing : bool)
    (returned : bool)
| SdkRead (returned : bool)
| SdkCreate (app : App) (display_name : string) (requirements : Toml)
    (extra_packages : list string) (returned : bool).
Arguments SdkInit {App} project location staging_bucket returned.
Arguments SdkAdkApp {App} agent enable_tracing returned.
Arguments SdkRead {App} returned.
Arguments SdkCreate {App} app display_name requirements extra_packages returned.

Definition returned {A} (r : result A) : bool :=
  match r with Return _ => true | Raise _ => false end.

Definition recording {St World App Remote} (sdk : Sdk St World App Remote)
    : Sdk St (World * list (SdkCall App)) App Remote :=
  {| vertexai_init := fun project location staging wl =>
       let '(r, w) := vertexai_init sdk project location staging (fst wl) in
       (r, (w, snd wl ++ [SdkInit project location staging (returned r)]));
     AdkApp := fun agent tracing builder wl =>
       let '(r, w) := AdkApp sdk agent tracing builder (fst wl) in
       (r, (w, snd wl ++ [SdkAdkApp agent tracing (returned r)]));
     read_pyproject := fun wl =>
       let '(r, w) := read_pyproject sdk (fst wl) in
       (r, (w, snd wl ++ [SdkRead (returned r)]));
     agent_engines_create := fun app name reqs extra wl =>
       let '(r, w) := agent_engines_create sdk app name reqs extra (fst wl) in
       (r, (w, snd wl ++ [SdkCreate app name reqs extra (returned r)]));
     display_name := display_name sdk |}.

(** A process over the recording SDK: the process [p] with a log. *)
Definition with_log {St World App} (p : Process St World)
    (log : list (SdkCall App)) : Process St (World * list (SdkCall App)) :=
  {| out := out p; globals := globals p; world := (world p, log) |}.

Definition observed {St World} (App : Type) (p : Process St World)
    : Process St (World * list (SdkCall App)) :=
  with_log p [].

Definition is_create {App} (c : SdkCall App) : bool :=
  match c with SdkCreate _ _ _ _ _ => true | _ => false end.

Definition call_returned {App} (c : SdkCall App) : bool :=
  match c with
  | SdkInit _ _ _ r => r
  | SdkAdkApp _ _ r => r
  | SdkRead r => r
  | SdkCreate _ _ _ _ r => r
  end.

End Deploy.


(** * Properties *)

(** ** The shim over a recording store *)

Ltac run_call :=
  match goal with
  | |- context [BaseSessionService.list_sessions ?v ?a ?u ?s] =>
      destruct (BaseSessionService.list_sessions v a u s) as [[?r | ?e] ?s1] eqn:?Hlist
  | |- context [BaseSessionService.get_session ?v ?a ?u ?i ?c ?s] =>
      destruct (BaseSessionService.get_session v a u i c s) as [[?x | ?e] ?s2] eqn:?Hget
  | |- context [BaseSessionService.create_session ?v ?a ?u ?st ?i ?s] =>
      destruct (BaseSessionService.create_session v a u st i s) as [[?x | ?e] ?s2] eqn:?Hcreate
  | |- context [BaseSessionService.delete_session ?v ?a ?u ?i ?s] =>
      destruct (BaseSessionService.delete_session v a u i s) as [[?x | ?e] ?s2] eqn:?Hdelete
  | |- context [BaseSessionService.append_event ?v ?x ?ev ?s] =>
      destruct (BaseSessionService.append_event v x ev s) as [[?y | ?e] ?s2] eqn:?Happend
  end.

Ltac unfold_shim :=
  unfold ImplicitSessionService.get_session, ImplicitSessionService.create_session,
    ImplicitSessionService.list_sessions, ImplicitSessionService.delete_session,
    ImplicitSessionService.append_event, await, ret, proxy; cbn;
  unfold logged; cbn.

(** What [get_session] of the shim does, by the outcome of the listing. *)
Lemma get_session_cases {St} (svc : BaseSessionService.t St) a u sid cfg s :
  ImplicitSessionService.get_session (proxy svc) a u sid cfg s =
  match BaseSessionService.list_sessions svc a u s with
  | (Raised e, s1) => (Raised e, s1)
  | (Returned resp, s1) =>
      match sessions resp with
      | x :: _ => BaseSessionService.get_session svc a u (id x) cfg s1
      | [] => BaseSessionService.create_session svc a u None None s1
      end
  end.
Proof.
  unfold_shim. run_call; [ | reflexivity ].
  destruct (sessions r) as [ | x rest ]; cbn; run_call; reflexivity.
Qed.

(** The calls [get_session] of the shim makes on the store, in order. *)
Lemma get_session_log {St} (svc : BaseSessionService.t St) a u sid cfg s log :
  ImplicitSessionService.get_session (proxy (recording svc)) a u sid cfg (s, log) =
  match BaseSessionService.list_sessions svc a u s with
  | (Raised e, s1) => (Raised e, (s1, log ++ [(CallList a u, Raised e)]))
  | (Returned resp, s1) =>
      let listed := (CallList a u, Returned (RListing resp)) in
      match sessions resp with
      | x :: _ =>
          let '(o, s2) := BaseSessionService.get_session svc a u (id x) cfg s1 in
          (o, (s2, log ++ [listed; (CallGet a u (id x) cfg, reply_of RSession o)]))
      | [] =>
          let '(o, s2) := BaseSessionService.create_session svc a u None None s1 in
          (o, (s2, log ++ [listed; (CallCreate a u None None, reply_of RSession o)]))
      end
  end.
Proof.
  unfold_shim. run_call; cbn; [ | reflexivity ].
  destruct (sessions r) as [ | x rest ]; cbn; run_call; cbn;
    rewrite <- app_assoc; reflexivity.
Qed.

(** Recording changes neither the outcome nor the store state. *)
Lemma recording_transparent {St} (svc : BaseSessionService.t St) a u sid cfg s log :
  let r := ImplicitSessionService.get_session (proxy (recording svc)) a u sid cfg (s, log) in
  (fst r, fst (snd r)) = ImplicitSessionService.get_session (proxy svc) a u sid cfg s.
Proof.
  cbv zeta. rewrite get_session_log, get_session_cases.
  run_call; cbn; [ | reflexivity ].
  destruct (sessions r) as [ | x rest ]; run_call; reflexivity.
Qed.

(** A pass-through operation of the shim makes the one call it was asked
    for, and its outcome is the outcome of that call. *)
Lemma pass_through_log {St} (svc : BaseSessionService.t St) c s log :
  is_get c = false ->
  invoke (ImplicitSessionService.as_service (proxy (recording svc))) c (s, log) =
  (fst (invoke svc c s), (snd (invoke svc c s), log ++ [(c, fst (invoke svc c s))])).
Proof.
  destruct c; cbn; try discriminate; intros _; unfold_shim;
    run_call; cbn; try reflexivity.
Qed.

Lemma get_log {St} (svc : BaseSessionService.t St) a u sid cfg s log :
  invoke (ImplicitSessionService.as_service (proxy (recording svc)))
    (CallGet a u sid cfg) (s, log) =
  let r := ImplicitSessionService.get_session (proxy (recording svc)) a u sid cfg (s, log) in
  (reply_of RSession (fst r), snd r).
Proof.
  cbn.
  destruct (ImplicitSessionService.get_session _ a u sid cfg (s, log)) as [o sl].
  reflexivity.
Qed.

(** ** Independence of the session identifier (C5) *)

(** C5: the result of [get_session] of the shim (the session returned or
    the exception raised, and the store state left) is the same for any
    two [session_id] arguments, for every store, store state, application,
    user and configuration. *)
Theorem get_session_ignores_session_id {St} (self : ImplicitSessionService.t St)
    (a u sid1 sid2 : string) (cfg : option Config) (s : St) :
  ImplicitSessionService.get_session self a u sid1 cfg s =
  ImplicitSessionService.get_session self a u sid2 cfg s.
Proof. reflexivity. Qed.

(** ** Pass-through operations (C6) *)

(** C6: each of [create_session], [list_sessions], [delete_session] and
    [append_event] of the shim gives, for all arguments and every store
    state, the value or exception and the resulting store state of the
    same operation of the proxied store on the same arguments; and on a
    recording store each makes exactly that one call. *)
Theorem pass_through_fidelity {St} (self : ImplicitSessionService.t St) :
  let svc := ImplicitSessionService._proxied_service self in
  (forall a u st sid s,
     ImplicitSessionService.create_session self a u st sid s =
     BaseSessionService.create_session svc a u st sid s) /\
  (forall a u s,
     ImplicitSessionService.list_sessions self a u s =
     BaseSessionService.list_sessions svc a u s) /\
  (forall a u sid s,
     ImplicitSessionService.delete_session self a u sid s =
     BaseSessionService.delete_session svc a u sid s) /\
  (forall sess ev s,
     ImplicitSessionService.append_event self sess ev s =
     BaseSessionService.append_event svc sess ev s) /\
  (forall c s,
     is_get c = false ->
     invoke (ImplicitSessionService.as_service (proxy (recording svc))) c (s, []) =
     (fst (invoke svc c s), (snd (invoke svc c s), [(c, fst (invoke svc c s))]))).
Proof.
  destruct self as [svc]; cbn.
  repeat split; intros.
  - unfold_shim. run_call; reflexivity.
  - unfold_shim. run_call; reflexivity.
  - unfold_shim. run_call; [ destruct x | ]; reflexivity.
  - unfold_shim. run_call; reflexivity.
  - now rewrite pass_through_log.
Qed.

(** ** Construction (C9) *)

(** C9: [__init__] raises [TypeError] for every object that is not an
    instance of [BaseSessionService]; for an instance it succeeds, keeps
    that very instance as [_proxied_service], and every operation of the
    constructed shim then calls that instance. *)
Theorem init_checks_instance {St} (o : PyObject St) :
  if isinstance_BaseSessionService o
  then exists svc self,
         o = PyService svc /\
         ImplicitSessionService.__init__ o = Instance self /\
         ImplicitSessionService._proxied_service self = svc /\
         (forall a u sid cfg s,
            ImplicitSessionService.get_session self a u sid cfg s =
            ImplicitSessionService.get_session (proxy svc) a u sid cfg s) /\
         (forall c s,
            is_get c = false ->
            invoke (ImplicitSessionService.as_service self) c s = invoke svc c s)
  else ImplicitSessionService.__init__ o =
       TypeError "proxied_service must be an instance of BaseSessionService".
Proof.
  destruct o as [svc | | | | ]; cbn; try reflexivity.
  exists svc, (proxy svc). repeat split.
  intros c s Hc. destruct c; cbn in *; try discriminate; unfold_shim;
    run_call; reflexivity.
Qed.

(** ** The reference store meets the expectations *)

Module InMemoryFacts.
Import InMemory.

Lemma pad_length n : String.length (pad n) = n.
Proof. induction n; cbn; congruence. Qed.

Lemma longest_bound x l : In x l -> String.length x <= longest l.
Proof.
  unfold longest. induction l as [ | y l IH ]; cbn; [ tauto | ].
  intros [-> | H]; [ lia | specialize (IH H); lia ].
Qed.

Lemma fresh_id_unused s :
  ~ In (fresh_id s) (map id (stored s) ++ tombstones s).
Proof.
  unfold fresh_id. intros H. apply longest_bound in H.
  rewrite pad_length in H. lia.
Qed.

Lemma belongs_refl a u st sid ev :
  belongs a u {| id := sid; app_name := a; user_id := u;
                 state := st; events := ev |} = true.
Proof. unfold belongs; cbn. now rewrite !String.eqb_refl. Qed.

Lemma live_after_delete l a u sid :
  map id (filter (belongs a u)
            (filter (fun x => negb (is_session a u sid x)) l)) =
  remove string_dec sid (map id (filter (belongs a u) l)).
Proof.
  induction l as [ | x l IH ]; cbn; [ reflexivity | ].
  unfold is_session at 1.
  destruct (belongs a u x) eqn:Hb; cbn.
  - destruct (string_dec sid (id x)) as [-> | Hne].
    + rewrite String.eqb_refl; cbn. exact IH.
    + apply String.eqb_neq in Hne. rewrite Hne; cbn.
      rewrite Hb; cbn. now rewrite IH.
  - rewrite Hb. exact IH.
Qed.

Lemma lawful : Lawful service live retired.
Proof.
  split; cbn.
  - intros a u s resp s'. unfold list_sessions, down.
    destruct (offline s); [ discriminate | ].
    intros [= <- <-]; cbn. unfold live.
    rewrite map_map. repeat split.
  - intros a u sid cfg s sess s'. unfold get_session, down.
    destruct (offline s); [ discriminate | ].
    destruct (find _ _) as [x | ] eqn:Hfind; [ | discriminate ].
    intros [= <- <-]. apply find_some in Hfind as [_ Hx].
    unfold is_session in Hx. apply andb_prop in Hx as [_ Hx].
    apply String.eqb_eq in Hx. split; [ | reflexivity ].
    destruct cfg; cbn; congruence.
  - intros a u st s sess s'. unfold create_session, down, add.
    destruct (offline s); [ discriminate | ].
    intros [= <- <-]; cbn.
    pose proof (fresh_id_unused s) as Hfresh. rewrite in_app_iff in Hfresh.
    repeat split.
    + unfold retired. tauto.
    + unfold live; cbn. rewrite filter_app, map_app; cbn.
      now rewrite belongs_refl.
    + now intros ->.
  - intros a u sid s s'. unfold delete_session, down.
    destruct (offline s); [ discriminate | ].
    intros [= <-]; cbn. split; [ apply live_after_delete | ].
    intros _. unfold retired; cbn. now left.
Qed.



End InMemoryFacts.

(** ** [get_session] never reports absence (C1) *)

Lemma reply_raised {A} (f : A -> Reply) (o : outcome A) e :
  reply_of f o = Raised e <-> o = Raised e.
Proof. destruct o; cbn; split; congruence. Qed.



(** Without the first expectation the absence does surface: a store whose
    listing names a session it cannot fetch makes the shim raise
    [NotFound]. *)
Example stale_listing_surfaces_absence :
  fst (ImplicitSessionService.get_session (proxy Scenario.stale_listing)
         "fraud" "bob" "ignored" None tt) = Raised NotFound.
Proof. reflexivity. Qed.

(** ** Reuse, creation and repetition over a lawful store (C2, C3, C4) *)

Lemma map_id_nil (l : list Session) : map id l = [] -> l = [].
Proof. destruct l; cbn; [ reflexivity | discriminate ]. Qed.

Lemma map_id_cons (l : list Session) i rest :
  map id l = i :: rest -> exists x l', l = x :: l' /\ id x = i.
Proof.
  destruct l as [ | x l' ]; cbn; [ discriminate | ].
  intros [= Hx _]. now exists x, l'.
Qed.

Section OverLawfulStore.
Context {St : Type}.
Variable svc : BaseSessionService.t St.
Variables live retired : St -> string -> string -> list string.
Hypothesis laws : Lawful svc live retired.

(** C2: when the listing of [(a, u)] is not empty, [get_session] of the
    shim is the store's full fetch of the session named by the first
    entry of the listing (the listing entry itself is not returned): it
    makes the listing call and then that fetch, and a session it
    returns has the identifier of the first entry. *)
Theorem get_session_fetches_first_listed
    (a u sid : string) (cfg : option Config) (s s1 : St)
    (resp : ListSessionsResponse) (x : Session) (rest : list Session) :
  BaseSessionService.list_sessions svc a u s = (Returned resp, s1) ->
  sessions resp = x :: rest ->
  ImplicitSessionService.get_session (proxy svc) a u sid cfg s =
    BaseSessionService.get_session svc a u (id x) cfg s1 /\
  (forall sess s2,
     ImplicitSessionService.get_session (proxy svc) a u sid cfg s =
       (Returned sess, s2) ->
     id sess = id x) /\
  snd (snd (ImplicitSessionService.get_session
              (proxy (recording svc)) a u sid cfg (s, []))) =
    [(CallList a u, Returned (RListing resp));
     (CallGet a u (id x) cfg,
      reply_of RSession
        (fst (BaseSessionService.get_session svc a u (id x) cfg s1)))].
Proof.
  intros Hlist Hfirst.
  rewrite get_session_log, get_session_cases, Hlist, Hfirst; cbn.
  split; [ reflexivity | ]. split.
  - intros sess s2 Hget. now apply (law_get _ _ _ laws) in Hget.
  - now destruct (BaseSessionService.get_session svc a u (id x) cfg s1).
Qed.

(** C3: when the store holds no session of [(a, u)], [get_session] of
    the shim is the store's creation of a session for [(a, u)] with no
    initial state and no chosen identifier; it makes that one creation
    call after the listing; and the session it returns has an empty
    state and is afterwards the only session of [(a, u)]. *)
Theorem get_session_creates_when_none
    (a u sid : string) (cfg : option Config) (s s1 : St)
    (resp : ListSessionsResponse) :
  BaseSessionService.list_sessions svc a u s = (Returned resp, s1) ->
  live s a u = [] ->
  let log :=
    snd (snd (ImplicitSessionService.get_session
                (proxy (recording svc)) a u sid cfg (s, []))) in
  ImplicitSessionService.get_session (proxy svc) a u sid cfg s =
    BaseSessionService.create_session svc a u None None s1 /\
  log =
    [(CallList a u, Returned (RListing resp));
     (CallCreate a u None None,
      reply_of RSession
        (fst (BaseSessionService.create_session svc a u None None s1)))] /\
  List.length (creations log) = 1 /\
  (forall sess s2,
     ImplicitSessionService.get_session (proxy svc) a u sid cfg s =
       (Returned sess, s2) ->
     state sess = [] /\ live s2 a u = [id sess]).
Proof.
  intros Hlist Hnone. cbv zeta.
  destruct (law_list _ _ _ laws _ _ _ _ _ Hlist) as (Hids & Hlive & _).
  rewrite Hnone in Hids. apply map_id_nil in Hids.
  rewrite get_session_log, get_session_cases, Hlist, Hids; cbn.
  destruct (BaseSessionService.create_session svc a u None None s1)
    as [o s2] eqn:Hcreate; cbn.
  split; [ reflexivity | ]. split; [ reflexivity | ]. split; [ reflexivity | ].
  intros sess s2' [= -> <-].
  apply (law_create _ _ _ laws) in Hcreate as (_ & Hnew & Hstate).
  split; [ now apply Hstate | ].
  now rewrite Hnew, Hlive, Hnone.
Qed.

(** C4: two calls of [get_session] of the shim in sequence for the same
    [(a, u)], the second starting from the store state the first left
    (so with no deletion in between), return sessions with the same
    identifier, whatever session identifiers and configurations are
    passed. *)
Theorem get_session_twice_same_id
    (a u sid sid' : string) (cfg cfg' : option Config) (s s1 s2 : St)
    (first second : Session) :
  ImplicitSessionService.get_session (proxy svc) a u sid cfg s =
    (Returned first, s1) ->
  ImplicitSessionService.get_session (proxy svc) a u sid' cfg' s1 =
    (Returned second, s2) ->
  id second = id first.
Proof.
  rewrite !get_session_cases. intros H1 H2.
  destruct (BaseSessionService.list_sessions svc a u s)
    as [[r1 | e1] t1] eqn:L1; [ | discriminate ].
  destruct (BaseSessionService.list_sessions svc a u s1)
    as [[r2 | e2] t2] eqn:L2; [ | discriminate ].
  destruct (law_list _ _ _ laws _ _ _ _ _ L1) as (I1 & K1 & _).
  destruct (law_list _ _ _ laws _ _ _ _ _ L2) as (I2 & _ & _).
  assert (exists tl, live s1 a u = id first :: tl) as [tl Hhead].
  { destruct (sessions r1) as [ | x rest ] eqn:E1.
    - apply (law_create _ _ _ laws) in H1 as (_ & Hnew & _).
      exists []. rewrite Hnew, K1, <- I1. reflexivity.
    - apply (law_get _ _ _ laws) in H1 as [Hid Hsame].
      exists (map id rest). rewrite Hsame, K1, <- I1, Hid. reflexivity. }
  rewrite Hhead in I2. apply map_id_cons in I2 as (y & l' & E2 & Hy).
  rewrite E2 in H2. apply (law_get _ _ _ laws) in H2 as [Hid _].
  congruence.
Qed.

End OverLawfulStore.

Lemma get_session_fetches_first_listed_witness :
  ImplicitSessionService.get_session (proxy InMemory.service)
    "fraud" "bob" "ignored" None Scenario.bob_store =
  BaseSessionService.get_session InMemory.service
    "fraud" "bob" "s1" None Scenario.bob_store.
Proof.
  exact (proj1 (get_session_fetches_first_listed
                  InMemory.service InMemory.live InMemory.retired
                  InMemoryFacts.lawful
                  "fraud" "bob" "ignored" None
                  Scenario.bob_store Scenario.bob_store
                  {| sessions := [InMemory.stub Scenario.s1;
                                  InMemory.stub Scenario.s2] |}
                  (InMemory.stub Scenario.s1) [InMemory.stub Scenario.s2]
                  eq_refl eq_refl)).
Defined.

(** The scenario of the two sessions of "bob": the listing gives "s1" then
    "s2" without their events, and the shim returns the full record of
    "s1", events included. *)
Example bob_gets_full_first_session :
  fst (InMemory.list_sessions "fraud" "bob" Scenario.bob_store) =
    Returned {| sessions := [InMemory.stub Scenario.s1;
                             InMemory.stub Scenario.s2] |} /\
  events (InMemory.stub Scenario.s1) = [] /\
  ImplicitSessionService.get_session (proxy InMemory.service)
    "fraud" "bob" "ignored" None Scenario.bob_store =
    (Returned Scenario.s1, Scenario.bob_store) /\
  events Scenario.s1 = [Scenario.hello].
Proof. repeat split. Qed.

(** The store of the scenario is what the calls that build it leave. *)
Example bob_store_reachable :
  let after c s := snd (invoke InMemory.service c s) in
  after (CallAppend Scenario.s1 Scenario.hello)
    (after (CallCreate "fraud" "bob" None (Some "s2"))
       (after (CallCreate "fraud" "bob" None (Some "s1")) InMemory.empty)) =
  Scenario.bob_store.
Proof. reflexivity. Qed.

Lemma get_session_creates_when_none_witness :
  ImplicitSessionService.get_session (proxy InMemory.service)
    "fraud" "alice" "ignored" None InMemory.empty =
  BaseSessionService.create_session InMemory.service
    "fraud" "alice" None None InMemory.empty.
Proof.
  exact (proj1 (get_session_creates_when_none
                  InMemory.service InMemory.live InMemory.retired
                  InMemoryFacts.lawful
                  "fraud" "alice" "ignored" None
                  InMemory.empty InMemory.empty {| sessions := [] |}
                  eq_refl eq_refl)).
Defined.

(** The scenario of "alice": no session at first, the shim returns a new
    session with no event and an empty state, and a second call returns
    the same identifier. *)
Example alice_first_contact :
  let shim := proxy InMemory.service in
  let r1 := ImplicitSessionService.get_session shim
              "fraud" "alice" "ignored" None InMemory.empty in
  let r2 := ImplicitSessionService.get_session shim
              "fraud" "alice" "ignored" None (snd r1) in
  r1 = (Returned Scenario.alice_session, Scenario.alice_store) /\
  fst r2 = fst r1 /\
  List.length (InMemory.stored (snd r2)) = 1.
Proof. repeat split. Qed.

Lemma get_session_twice_same_id_witness :
  exists first second s1 s2,
    ImplicitSessionService.get_session (proxy InMemory.service)
      "fraud" "alice" "ignored" None InMemory.empty = (Returned first, s1) /\
    ImplicitSessionService.get_session (proxy InMemory.service)
      "fraud" "alice" "other" (Some 3) s1 = (Returned second, s2) /\
    id second = id first.
Proof.
  exists Scenario.alice_session, Scenario.alice_session,
    Scenario.alice_store, Scenario.alice_store.
  split; [ reflexivity | ]. split; [ reflexivity | ].
  exact (get_session_twice_same_id
           InMemory.service InMemory.live InMemory.retired
           InMemoryFacts.lawful
           "fraud" "alice" "ignored" "other" None (Some 3)
           InMemory.empty _ _ _ _ eq_refl eq_refl).
Defined.

(** ** Store exceptions surface unchanged (C7) *)

Lemma single_failure_last {A} (l1 l2 : A) (bad : A -> Prop) pre entry post :
  ~ bad l1 -> [l1; l2] = pre ++ entry :: post -> bad entry -> post = [].
Proof.
  intros Hgood Heq Hbad.
  destruct pre as [ | p1 [ | p2 pre ] ]; cbn in Heq.
  - injection Heq as <- _. contradiction.
  - now injection Heq as _ _ <-.
  - injection Heq as _ _ Heq. now destruct pre.
Qed.

(** C7: for each of the five operations of the shim, on any store and
    store state: an exception raised by a store call made during the
    operation is the exception the operation raises, and the operation
    raises no other; nothing is called on the store after a call that
    raised (no retry and no recovery); the operation makes at most two
    store calls. The empty listing of [get_session] is a returned value,
    not an exception, and is followed by the creation call. *)
Theorem store_errors_surface_unchanged {St} (svc : BaseSessionService.t St)
    (c : Call) (s : St) :
  let r := invoke (ImplicitSessionService.as_service (proxy (recording svc)))
             c (s, []) in
  let log := snd (snd r) in
  (forall e, (exists c', In (c', Raised e) log) <-> fst r = Raised e) /\
  (forall pre entry post,
     log = pre ++ entry :: post -> failed entry <> None -> post = []) /\
  1 <= List.length log <= 2.
Proof.
  cbv zeta. destruct (is_get c) eqn:Hc.
  - destruct c as [ | a u sid cfg | | | ]; try discriminate.
    rewrite get_log; cbv zeta. rewrite get_session_log.
    destruct (BaseSessionService.list_sessions svc a u s) as [[resp | e] s1].
    + assert (forall o : outcome Session, forall s2 : St, forall c2 : Call,
        let log := [(CallList a u, Returned (RListing resp));
                    (c2, reply_of RSession o)] in
        (forall e, (exists c', In (c', Raised e) log) <->
                   reply_of RSession o = Raised e) /\
        (forall pre entry post,
           log = pre ++ entry :: post -> failed entry <> None -> post = []) /\
        1 <= List.length log <= 2) as Htwo.
      { intros o s2 c2; cbv zeta. split; [ | split; [ | cbn; lia ] ].
        - intros e; split.
          + intros (c' & [H | [H | []]]); [ discriminate | ].
            now injection H as _ ->.
          + intros H. exists c2. right; left. now rewrite H.
        - intros pre entry post Heq Hbad.
          apply (single_failure_last _ _ (fun x => failed x <> None)
                   pre entry post) in Heq; auto. }
      destruct (sessions resp) as [ | x rest ].
      * destruct (BaseSessionService.create_session svc a u None None s1)
          as [o s2]; cbn [fst snd app]. apply (Htwo o s2).
      * destruct (BaseSessionService.get_session svc a u (id x) cfg s1)
          as [o s2]; cbn [fst snd app]. apply (Htwo o s2).
    + cbn. split; [ | split; [ | lia ] ].
      * intros e'; split.
        -- intros (c' & [H | []]). now injection H as _ ->.
        -- intros [= ->]. exists (CallList a u). now left.
      * intros pre entry post Heq _.
        destruct pre as [ | p [ | ] ]; cbn in Heq; try discriminate.
        now injection Heq as _ <-.
  - rewrite pass_through_log by assumption; cbn.
    split; [ | split; [ | lia ] ].
    + intros e; split.
      * intros (c' & [H | []]). now injection H as _ ->.
      * intros H. exists c. left. now rewrite H.
    + intros pre entry post Heq _.
      destruct pre as [ | p [ | ] ]; cbn in Heq; try discriminate.
      now injection Heq as _ <-.
Qed.

(** A store that is offline: the listing raises, the shim raises the same
    exception after that single call and leaves the store as it was. *)
Example offline_store_surfaces :
  let down := {| InMemory.stored := [Scenario.s1]; InMemory.tombstones := [];
                 InMemory.offline := true |} in
  ImplicitSessionService.get_session (proxy (recording InMemory.service))
    "fraud" "bob" "ignored" None (down, []) =
  (Raised (StoreUnavailable "store is offline"),
   (down, [(CallList "fraud" "bob",
            Raised (StoreUnavailable "store is offline"))])).
Proof. reflexivity. Qed.

(** ** [get_session] after [delete_session] (C8) *)

(** C8, as stated, fails: "bob" has the sessions "s1" and "s2"; after
    [delete_session] of "s1" the shim creates nothing: it makes no
    creation call, the store holds the same sessions after the call as
    before it, and the session returned is "s2", which existed before the
    deletion. *)
Lemma delete_then_get_reuses_remaining_session :
  InMemory.delete_session "fraud" "bob" "s1" Scenario.bob_store =
    (Returned tt, Scenario.bob_store_without_s1) /\
  ImplicitSessionService.get_session (proxy (recording InMemory.service))
    "fraud" "bob" "s1" None (Scenario.bob_store_without_s1, []) =
    (Returned Scenario.s2,
     (Scenario.bob_store_without_s1,
      [(CallList "fraud" "bob",
        Returned (RListing {| sessions := [InMemory.stub Scenario.s2] |}));
       (CallGet "fraud" "bob" "s2" None, Returned (RSession Scenario.s2))])) /\
  In (id Scenario.s2) (InMemory.live Scenario.bob_store "fraud" "bob").
Proof.
  split; [ reflexivity | ]. split; [ reflexivity | ]. cbn. tauto.
Qed.

Section AfterDelete.
Context {St : Type}.
Variable svc : BaseSessionService.t St.
Variables live retired : St -> string -> string -> list string.
Hypothesis laws : Lawful svc live retired.

(** C8, amended: after [delete_session] of a session [sid] of [(a, u)],
    a session returned by [get_session] of the shim has an identifier
    other than [sid]. When [sid] was the only session of [(a, u)], the
    shim makes one creation call and the session is new; when other
    sessions of [(a, u)] remain, it makes no creation call and returns
    the first of the remaining ones. *)
Theorem get_session_after_delete
    (a u sid sid' : string) (cfg : option Config) (s s1 s2 : St)
    (sess : Session) :
  In sid (live s a u) ->
  BaseSessionService.delete_session svc a u sid s = (Returned tt, s1) ->
  ImplicitSessionService.get_session (proxy svc) a u sid' cfg s1 =
    (Returned sess, s2) ->
  let log :=
    snd (snd (ImplicitSessionService.get_session
                (proxy (recording svc)) a u sid' cfg (s1, []))) in
  id sess <> sid /\
  match remove string_dec sid (live s a u) with
  | [] => List.length (creations log) = 1 /\ ~ In (id sess) (live s a u)
  | y :: _ => creations log = [] /\ id sess = y /\ In (id sess) (live s a u)
  end.
Proof.
  intros Hlive Hdel Hget. cbv zeta.
  rewrite get_session_log. rewrite get_session_cases in Hget.
  destruct (law_delete _ _ _ laws _ _ _ _ _ Hdel) as [Hleft Hgone].
  specialize (Hgone Hlive).
  destruct (BaseSessionService.list_sessions svc a u s1)
    as [[resp | e] t] eqn:Hlist; [ | discriminate ].
  destruct (law_list _ _ _ laws _ _ _ _ _ Hlist) as (Hids & Hsame & Hret).
  rewrite Hleft in Hids.
  destruct (sessions resp) as [ | x rest ] eqn:Hresp; cbn in Hids.
  - rewrite <- Hids, Hget; cbn.
    apply (law_create _ _ _ laws) in Hget as (Hfresh & _ & _).
    rewrite Hret in Hfresh.
    assert (id sess <> sid) as Hne by congruence.
    repeat split; [ exact Hne | ].
    intros Hin. apply (in_in_remove string_dec _ Hne) in Hin.
    now rewrite <- Hids in Hin.
  - rewrite <- Hids, Hget; cbn.
    apply (law_get _ _ _ laws) in Hget as [Hid _].
    assert (In (id x) (remove string_dec sid (live s a u))) as Hin
      by (rewrite <- Hids; now left).
    apply in_remove in Hin as [Hin Hne].
    rewrite Hid. repeat split; assumption.
Qed.

End AfterDelete.

Lemma get_session_after_delete_witness :
  id Scenario.s2 <> "s1" /\
  id Scenario.alice_second_session <> "s".
Proof.
  split.
  - exact (proj1 (get_session_after_delete
                    InMemory.service InMemory.live InMemory.retired
                    InMemoryFacts.lawful
                    "fraud" "bob" "s1" "s1" None
                    Scenario.bob_store Scenario.bob_store_without_s1
                    Scenario.bob_store_without_s1 Scenario.s2
                    (or_introl eq_refl) eq_refl eq_refl)).
  - exact (proj1 (get_session_after_delete
                    InMemory.service InMemory.live InMemory.retired
                    InMemoryFacts.lawful
                    "fraud" "alice" "s" "s" None
                    Scenario.alice_store Scenario.alice_store_after_delete
                    {| InMemory.stored := [Scenario.alice_second_session];
                       InMemory.tombstones := ["s"];
                       InMemory.offline := false |}
                    Scenario.alice_second_session
                    (or_introl eq_refl) eq_refl eq_refl)).
Defined.

(** When the deleted session was the only one, the shim does create: the
    call after the deletion makes one creation call and returns a session
    with a new identifier. *)
Example alice_recreated_after_delete :
  InMemory.delete_session "fraud" "alice" "s" Scenario.alice_store =
    (Returned tt, Scenario.alice_store_after_delete) /\
  let r := ImplicitSessionService.get_session (proxy (recording InMemory.service))
             "fraud" "alice" "s" None (Scenario.alice_store_after_delete, []) in
  fst r = Returned Scenario.alice_second_session /\
  List.length (creations (snd (snd r))) = 1.
Proof. repeat split. Qed.

(** ** The publish tool (C10) *)

(** C10, as stated, fails in two ways. With no cached client for the topic
    and no credentials, constructing the client raises before the [try] is
    entered, and the tool raises instead of returning a dictionary. With a
    client, an exception raised while waiting that does not derive from
    [Exception] is not caught either. *)
Lemma publish_record_can_raise :
  fst (Agent.publish_record Agent.test_pubsub Scenario.topic
         Scenario.empty_object
         (Scenario.fresh_process (Scenario.world false true false))) =
    Agent.Raise Agent.DefaultCredentialsError /\
  fst (Agent.publish_record Agent.test_pubsub Scenario.topic
         Scenario.empty_object
         (Scenario.fresh_process (Scenario.world true true true))) =
    Agent.Raise Agent.KeyboardInterrupt.
Proof. split; reflexivity. Qed.

(** C10, amended: whenever a client for the topic is at hand (cached, or
    constructed without raising), [publish_record] returns the empty
    dictionary both when the publish succeeds and when encoding,
    publishing or waiting raises an exception deriving from [Exception];
    the two cases are not told apart by the value returned. *)
Theorem publish_record_returns_empty_dict
    {World Publisher Future : Type}
    (pubsub_v1 : Agent.PubSub World Publisher Future)
    (topic : string) (json_payload : list N)
    (p p1 : Agent.Process World Publisher) (publisher : Publisher) :
  Agent.publisher_for pubsub_v1 topic p = (Agent.Return publisher, p1) ->
  (forall e w,
     Agent.try_body pubsub_v1 publisher topic json_payload (Agent.world p1) =
       (Agent.Raise e, w) ->
     Agent.is_Exception e = true) ->
  fst (Agent.publish_record pubsub_v1 topic json_payload p) = Agent.Return [].
Proof.
  intros Hclient Hcaught. unfold Agent.publish_record. rewrite Hclient.
  destruct (Agent.try_body pubsub_v1 publisher topic json_payload (Agent.world p1))
    as [[[] | e] w] eqn:Hbody; [ reflexivity | ].
  now rewrite (Hcaught e w eq_refl).
Qed.

Lemma publish_record_returns_empty_dict_witness :
  fst (Agent.publish_record Agent.test_pubsub Scenario.topic
         Scenario.empty_object
         (Scenario.fresh_process (Scenario.world true false false))) =
    Agent.Return [] /\
  fst (Agent.publish_record Agent.test_pubsub Scenario.topic
         Scenario.empty_object
         (Scenario.fresh_process (Scenario.world true true false))) =
    Agent.Return [].
Proof.
  split.
  - apply (publish_record_returns_empty_dict Agent.test_pubsub Scenario.topic
             Scenario.empty_object
             (Scenario.fresh_process (Scenario.world true false false))
             {| Agent._publishers :=
                  [(Scenario.topic, {| Agent.max_messages := 1 |})];
                Agent.world := Scenario.world true false false |}
             {| Agent.max_messages := 1 |} eq_refl).
    cbn. intros e w [= <- _]. reflexivity.
  - apply (publish_record_returns_empty_dict Agent.test_pubsub Scenario.topic
             Scenario.empty_object
             (Scenario.fresh_process (Scenario.world true true false))
             {| Agent._publishers :=
                  [(Scenario.topic, {| Agent.max_messages := 1 |})];
                Agent.world := Scenario.world true true false |}
             {| Agent.max_messages := 1 |} eq_refl).
    cbn. intros e w [=].
Defined.

(** What the tool gives in every case: the empty dictionary, or an
    exception that is either the one the client constructor raised on a
    cache miss or one not deriving from [Exception] raised inside the
    [try]. *)
Lemma publish_record_result
    {World Publisher Future : Type}
    (pubsub_v1 : Agent.PubSub World Publisher Future)
    (topic : string) (json_payload : list N)
    (p : Agent.Process World Publisher) :
  match fst (Agent.publish_record pubsub_v1 topic json_payload p) with
  | Agent.Return d => d = []
  | Agent.Raise e =>
      (Agent.dict_get topic (Agent._publishers p) = None /\
       fst (Agent.PublisherClient pubsub_v1 {| Agent.max_messages := 1 |}
              (Agent.world p)) = Agent.Raise e) \/
      Agent.is_Exception e = false
  end.
Proof.
  unfold Agent.publish_record, Agent.publisher_for.
  destruct (Agent.dict_get topic (Agent._publishers p)) as [c | ] eqn:Hc.
  - destruct (Agent.try_body _ _ _ _ _) as [[[] | e] w]; cbn; [ reflexivity | ].
    destruct (Agent.is_Exception e) eqn:He; cbn; [ reflexivity | now right ].
  - destruct (Agent.PublisherClient _ _ _) as [[c | e] w] eqn:Hnew; cbn.
    + destruct (Agent.try_body _ _ _ _ _) as [[[] | e] w']; cbn; [ reflexivity | ].
      destruct (Agent.is_Exception e) eqn:He; cbn; [ reflexivity | now right ].
    + left. now split.
Qed.

(** A payload that cannot be encoded raises inside the [try]; the tool
    returns the empty dictionary and nothing is published. The client
    constructed on the way stays cached for the topic. *)
Example unencodable_payload_swallowed :
  Agent.publish_record Agent.test_pubsub Scenario.topic
    Scenario.lone_surrogate
    (Scenario.fresh_process (Scenario.world true true false)) =
  (Agent.Return [],
   {| Agent._publishers := [(Scenario.topic, {| Agent.max_messages := 1 |})];
      Agent.world := Scenario.world true true false |}).
Proof. reflexivity. Qed.

Example encode_two_byte : Agent.encode [233%N] = Agent.Return [195; 169]%N.
Proof. reflexivity. Qed.


(** * Further properties of the shim *)

(** X1: every call [get_session] of the shim makes on the store is for the
    caller's application and user: a listing, then either a fetch with
    the caller's configuration or a creation with no state and no
    identifier. It never calls [delete_session] or [append_event]; it
    creates only after a listing that returned no session, and fetches
    only an identifier that the listing returned first. *)
Theorem get_session_calls_scoped {St} (svc : BaseSessionService.t St)
    (a u sid : string) (cfg : option Config) (s : St) :
  let log :=
    snd (snd (ImplicitSessionService.get_session
                (proxy (recording svc)) a u sid cfg (s, []))) in
  Forall (fun entry => within_get_session a u cfg (fst entry)) log /\
  (forall entry, In entry log -> is_create (fst entry) = true ->
     exists resp,
       In (CallList a u, Returned (RListing resp)) log /\ sessions resp = []) /\
  (forall a' u' i cfg' o, In (CallGet a' u' i cfg', o) log ->
     exists resp x rest,
       In (CallList a u, Returned (RListing resp)) log /\
       sessions resp = x :: rest /\ i = id x).
Proof.
  cbv zeta. rewrite get_session_log.
  destruct (BaseSessionService.list_sessions svc a u s) as [[resp | e] s1].
  - destruct (sessions resp) as [ | x rest ] eqn:Hresp.
    + destruct (BaseSessionService.create_session svc a u None None s1)
        as [o s2]; cbn.
      split; [ repeat constructor | ]. split.
      * intros entry _ _. exists resp. split; [ now left | assumption ].
      * intros a' u' i cfg' o' [H | [H | []]]; discriminate.
    + destruct (BaseSessionService.get_session svc a u (id x) cfg s1)
        as [o s2]; cbn.
      split; [ repeat constructor | ]. split.
      * intros entry [<- | [<- | []]]; discriminate.
      * intros a' u' i cfg' o' [H | [H | []]]; [ discriminate | ].
        injection H as _ _ <- _ _. exists resp, x, rest.
        split; [ now left | now split ].
  - cbn. split; [ repeat constructor | ]. split.
    + intros entry [<- | []]; discriminate.
    + intros a' u' i cfg' o' [H | []]; discriminate.
Qed.

Section SelectionOverLawfulStore.
Context {St : Type}.
Variable svc : BaseSessionService.t St.
Variables live retired : St -> string -> string -> list string.
Hypothesis laws : Lawful svc live retired.

(** X2: over a lawful store, when [get_session] of the shim returns a
    session, that session is the first one of the pair's listing in the
    store state it leaves; and if the pair had a session before the call,
    the call leaves the pair's listing as it was (it neither creates nor
    removes a session). *)
Theorem get_session_leaves_first_listed
    (a u sid : string) (cfg : option Config) (s s2 : St) (sess : Session) :
  ImplicitSessionService.get_session (proxy svc) a u sid cfg s =
    (Returned sess, s2) ->
  hd_error (live s2 a u) = Some (id sess) /\
  (live s a u <> [] -> live s2 a u = live s a u).
Proof.
  rewrite get_session_cases. intros Hget.
  destruct (BaseSessionService.list_sessions svc a u s)
    as [[resp | e] s1] eqn:Hlist; [ | discriminate ].
  destruct (law_list _ _ _ laws _ _ _ _ _ Hlist) as (Hids & Hsame & _).
  destruct (sessions resp) as [ | x rest ] eqn:Hresp; cbn in Hids.
  - apply (law_create _ _ _ laws) in Hget as (_ & Hnew & _).
    rewrite Hnew, Hsame, <- Hids. split; [ reflexivity | ].
    intros Hne. now elim Hne.
  - apply (law_get _ _ _ laws) in Hget as [Hid Hkeep].
    rewrite Hkeep, Hsame, <- Hids, Hid. split; [ reflexivity | ].
    reflexivity.
Qed.

(** X3: over a lawful store, a session created through [create_session]
    of the shim (with no chosen identifier) is the one a following
    [get_session] returns exactly when the pair had no session before;
    when it had, [get_session] still returns the one that was listed
    first before the creation. *)
Theorem create_then_get_session
    (a u sid : string) (st : option StateDict) (cfg : option Config)
    (s s1 s2 : St) (created got : Session) :
  ImplicitSessionService.create_session (proxy svc) a u st None s =
    (Returned created, s1) ->
  ImplicitSessionService.get_session (proxy svc) a u sid cfg s1 =
    (Returned got, s2) ->
  id got = hd (id created) (live s a u).
Proof.
  intros Hcreate Hget.
  assert (BaseSessionService.create_session svc a u st None s =
          (Returned created, s1)) as Hc.
  { revert Hcreate. unfold_shim.
    destruct (BaseSessionService.create_session svc a u st None s)
      as [[x | e] t]; congruence. }
  apply (law_create _ _ _ laws) in Hc as (_ & Hnew & _).
  rewrite get_session_cases in Hget.
  destruct (BaseSessionService.list_sessions svc a u s1)
    as [[resp | e] t] eqn:Hlist; [ | discriminate ].
  destruct (law_list _ _ _ laws _ _ _ _ _ Hlist) as (Hids & _ & _).
  rewrite Hnew in Hids.
  destruct (sessions resp) as [ | x rest ] eqn:Hresp; cbn in Hids.
  - destruct (live s a u); discriminate.
  - apply (law_get _ _ _ laws) in Hget as [Hid _]. rewrite Hid.
    destruct (live s a u) as [ | y tl ]; cbn in *; congruence.
Qed.

End SelectionOverLawfulStore.

Lemma get_session_leaves_first_listed_witness :
  hd_error (InMemory.live Scenario.bob_store "fraud" "bob") = Some "s1".
Proof.
  exact (proj1 (get_session_leaves_first_listed
                  InMemory.service InMemory.live InMemory.retired
                  InMemoryFacts.lawful
                  "fraud" "bob" "ignored" None
                  Scenario.bob_store Scenario.bob_store Scenario.s1
                  eq_refl)).
Defined.

Lemma create_then_get_session_witness :
  id Scenario.s1 = "s1".
Proof.
  exact (create_then_get_session
           InMemory.service InMemory.live InMemory.retired
           InMemoryFacts.lawful
           "fraud" "bob" "ignored" None None
           Scenario.bob_store
           {| InMemory.stored :=
                [Scenario.s1; Scenario.s2;
                 {| id := "sss"; app_name := "fraud"; user_id := "bob";
                    state := []; events := [] |}];
              InMemory.tombstones := []; InMemory.offline := false |}
           _
           {| id := "sss"; app_name := "fraud"; user_id := "bob";
              state := []; events := [] |}
           Scenario.s1 eq_refl eq_refl).
Defined.


(** * Further properties of the publish tool *)

Module AgentFacts.
Import Agent AgentCalls.

Lemma dict_get_app_some {V} k (d : list (string * V)) k' v c :
  dict_get k d = Some c -> dict_get k (d ++ [(k', v)]) = Some c.
Proof.
  induction d as [ | [k0 v0] d IH ]; cbn; [ discriminate | ].
  destruct (String.eqb k k0); auto.
Qed.

Lemma dict_get_app_none {V} k (d : list (string * V)) v :
  dict_get k d = None -> dict_get k (d ++ [(k, v)]) = Some v.
Proof.
  induction d as [ | [k0 v0] d IH ]; cbn.
  - now rewrite String.eqb_refl.
  - destruct (String.eqb k k0); [ discriminate | auto ].
Qed.


Lemma publish_record_cache {World Publisher Future : Type}
    (ps : PubSub World Publisher Future) topic payload
    (p : Process World Publisher) :
  _publishers (snd (publish_record ps topic payload p)) =
  _publishers (snd (publisher_for ps topic p)).
Proof.
  unfold publish_record.
  destruct (publisher_for ps topic p) as [[c | e] p1]; [ | reflexivity ].
  destruct (try_body ps c topic payload (world p1)) as [[[] | e] w];
    [ reflexivity | ].
  destruct (is_Exception e); reflexivity.
Qed.

End AgentFacts.

(** X4: [publish_record] never drops or replaces a cached client: every
    topic cached before the call is cached with the same client after it,
    whatever the call returns or raises. When a client for the topic was
    at hand (cached, or constructed without raising), the topic is cached
    with that client after the call, also when the publish failed. *)
Theorem publish_record_keeps_cache {World Publisher Future : Type}
    (ps : Agent.PubSub World Publisher Future)
    (topic : string) (payload : list N) (p : Agent.Process World Publisher) :
  let after := Agent._publishers (snd (Agent.publish_record ps topic payload p)) in
  (forall t c,
     Agent.dict_get t (Agent._publishers p) = Some c ->
     Agent.dict_get t after = Some c) /\
  (forall c p1,
     Agent.publisher_for ps topic p = (Agent.Return c, p1) ->
     Agent.dict_get topic after = Some c).
Proof.
  cbv zeta. rewrite AgentFacts.publish_record_cache.
  unfold Agent.publisher_for.
  destruct (Agent.dict_get topic (Agent._publishers p)) as [c0 | ] eqn:Hc.
  - cbn. split; [ auto | ]. intros c p1 [= <- <-]. exact Hc.
  - destruct (Agent.PublisherClient ps _ (Agent.world p)) as [[c1 | e] w]; cbn.
    + split.
      * intros t c Ht. now apply AgentFacts.dict_get_app_some.
      * intros c p1 [= <- <-]. now apply AgentFacts.dict_get_app_none.
    + split; [ auto | ]. intros c p1 [=].
Qed.



Ltac split_calls :=
  repeat match goal with
  | |- context [Agent.PublisherClient ?ps ?bs ?w] =>
      destruct (Agent.PublisherClient ps bs w) as [[?cl | ?ex] ?wn] eqn:?Hnew; cbn
  | |- context [Agent.publish ?ps ?c ?t ?d ?w] =>
      destruct (Agent.publish ps c t d w) as [[?fu | ?ex] ?wn] eqn:?Hpub; cbn
  | |- context [Agent.result ?ps ?f ?w] =>
      destruct (Agent.result ps f w) as [[?mid | ?ex] ?wn] eqn:?Hres; cbn
  | |- context [Agent.is_Exception ?e] =>
      destruct (Agent.is_Exception e) eqn:?Hexc; cbn
  end.

Ltac in_cases :=
  repeat match goal with
  | H : _ \/ _ |- _ => destruct H as [H | H]
  | H : False |- _ => contradiction
  end.

(** The calls one [publish_record] makes into the client library. *)
Lemma publish_record_log {World Publisher Future : Type}
    (ps : Agent.PubSub World Publisher Future)
    (topic : string) (payload : list N) (p : Agent.Process World Publisher) :
  snd (Agent.world
         (snd (Agent.publish_record (AgentCalls.recording ps) topic payload
                 (AgentCalls.observed Future p)))) =
  let body c w :=
    match Agent.encode payload with
    | Agent.Raise _ => []
    | Agent.Return data =>
        let r := fst (Agent.publish ps c topic data w) in
        AgentCalls.Publish c topic data r ::
        match r with
        | Agent.Return future =>
            [AgentCalls.Wait future
               (fst (Agent.result ps future
                       (snd (Agent.publish ps c topic data w))))]
        | Agent.Raise _ => []
        end
    end in
  match Agent.dict_get topic (Agent._publishers p) with
  | Some c => body c (Agent.world p)
  | None =>
      let bs := {| Agent.max_messages := 1 |} in
      let r := fst (Agent.PublisherClient ps bs (Agent.world p)) in
      AgentCalls.NewClient bs r ::
      match r with
      | Agent.Return c => body c (snd (Agent.PublisherClient ps bs (Agent.world p)))
      | Agent.Raise _ => []
      end
  end.
Proof.
  cbv zeta.
  unfold Agent.publish_record, Agent.publisher_for, Agent.try_body,
    AgentCalls.observed; cbn.
  destruct (Agent.dict_get topic (Agent._publishers p)) as [c | ]; cbn;
    destruct (Agent.encode payload) as [data | e0]; cbn;
    split_calls; reflexivity.
Qed.

(** X6: one client per topic. A call of [publish_record] constructs a
    client only when the topic is not cached, then exactly once and with
    [max_messages = 1]; and once a call has had a client at hand, a
    following call for the same topic (with any payload) constructs
    none. *)
Theorem publish_record_one_client_per_topic {World Publisher Future : Type}
    (ps : Agent.PubSub World Publisher Future)
    (topic : string) (payload payload' : list N)
    (p : Agent.Process World Publisher) :
  let calls q pl :=
    snd (Agent.world
           (snd (Agent.publish_record (AgentCalls.recording ps) topic pl
                   (AgentCalls.observed Future q)))) in
  filter AgentCalls.is_new_client (calls p payload) =
    match Agent.dict_get topic (Agent._publishers p) with
    | Some _ => []
    | None =>
        [AgentCalls.NewClient {| Agent.max_messages := 1 |}
           (fst (Agent.PublisherClient ps {| Agent.max_messages := 1 |}
                   (Agent.world p)))]
    end /\
  (forall c p1,
     Agent.publisher_for ps topic p = (Agent.Return c, p1) ->
     filter AgentCalls.is_new_client
       (calls (snd (Agent.publish_record ps topic payload p)) payload') = []).
Proof.
  cbv zeta.
  assert (forall (q : Agent.Process World Publisher) pl c,
            Agent.dict_get topic (Agent._publishers q) = Some c ->
            filter AgentCalls.is_new_client
              (snd (Agent.world
                 (snd (Agent.publish_record (AgentCalls.recording ps) topic pl
                         (AgentCalls.observed Future q))))) = []) as Hhit.
  { intros q pl c Hc. rewrite publish_record_log; cbv zeta. rewrite Hc.
    destruct (Agent.encode pl) as [data | e0]; cbn; [ | reflexivity ].
    destruct (fst (Agent.publish ps c topic data (Agent.world q)));
      reflexivity. }
  split.
  - destruct (Agent.dict_get topic (Agent._publishers p)) as [c | ] eqn:Hc.
    + now apply (Hhit p payload c).
    + rewrite publish_record_log; cbv zeta. rewrite Hc; cbn. f_equal.
      destruct (Agent.PublisherClient ps _ (Agent.world p)) as [[c | e] w];
        cbn; [ | reflexivity ].
      destruct (Agent.encode payload) as [data | e0]; cbn; [ | reflexivity ].
      destruct (fst (Agent.publish ps c topic data w)); reflexivity.
  - intros c p1 Hc. apply (Hhit _ payload' c).
    rewrite AgentFacts.publish_record_cache, Hc.
    revert Hc. unfold Agent.publisher_for.
    destruct (Agent.dict_get topic (Agent._publishers p)) as [c0 | ] eqn:Hget.
    + now intros [= <- <-].
    + destruct (Agent.PublisherClient ps _ (Agent.world p)) as [[c1 | e] w];
        [ | discriminate ].
      intros [= <- <-]; cbn. now apply AgentFacts.dict_get_app_none.
Qed.

(** X7: at most one publish per call. Each call of [publish_record] makes
    at most one [publish] call into the library: on the client of the
    topic, with the topic given and the UTF-8 bytes of the payload; it
    publishes nothing when the payload cannot be encoded. It waits only on
    the future that this [publish] returned. *)
Theorem publish_record_publishes_once {World Publisher Future : Type}
    (ps : Agent.PubSub World Publisher Future)
    (topic : string) (payload : list N) (p : Agent.Process World Publisher) :
  let log :=
    snd (Agent.world
           (snd (Agent.publish_record (AgentCalls.recording ps) topic payload
                   (AgentCalls.observed Future p)))) in
  List.length (filter AgentCalls.is_publish log) <= 1 /\
  (forall c t data r,
     In (AgentCalls.Publish c t data r) log ->
     t = topic /\ Agent.encode payload = Agent.Return data /\
     exists p1, Agent.publisher_for ps topic p = (Agent.Return c, p1)) /\
  (forall future r,
     In (AgentCalls.Wait future r) log ->
     exists c data,
       In (AgentCalls.Publish c topic data (Agent.Return future)) log) /\
  (forall e, Agent.encode payload = Agent.Raise e ->
     filter AgentCalls.is_publish log = []).
Proof.
  cbv zeta. rewrite publish_record_log; cbv zeta.
  unfold Agent.publisher_for.
  destruct (Agent.dict_get topic (Agent._publishers p)) as [c | ]; cbn;
    [ | destruct (Agent.PublisherClient ps _ (Agent.world p))
          as [[c | e1] w1]; cbn ];
    try (destruct (Agent.encode payload) as [data | e0]; cbn;
         [ match goal with
           | |- context [Agent.publish ps c topic data ?w] =>
               destruct (Agent.publish ps c topic data w) as [[f | e2] w2]; cbn
           end | ]);
    (split; [ lia | split; [ | split ] ]).
  all: try (intros c' t data' r H; in_cases; try discriminate;
            injection H as <- <- <- _; repeat split; eauto).
  all: try (intros future r H; in_cases; try discriminate;
            injection H as <- _; exists c, data; cbn; tauto).
  all: intros e He; try discriminate; reflexivity.
Qed.

(** X8: no retry in the publish tool. A call of [publish_record] makes at
    most three calls into the client library (construct, publish, wait),
    and none after a call that raised: a failed construction, publish or
    wait is not attempted again. *)
Theorem publish_record_stops_at_failure {World Publisher Future : Type}
    (ps : Agent.PubSub World Publisher Future)
    (topic : string) (payload : list N) (p : Agent.Process World Publisher) :
  let log :=
    snd (Agent.world
           (snd (Agent.publish_record (AgentCalls.recording ps) topic payload
                   (AgentCalls.observed Future p)))) in
  List.length log <= 3 /\
  (forall pre entry post,
     log = pre ++ entry :: post -> call_raised entry = true -> post = []).
Proof.
  cbv zeta. rewrite publish_record_log; cbv zeta.
  destruct (Agent.dict_get topic (Agent._publishers p)) as [c | ]; cbn;
    [ | destruct (Agent.PublisherClient ps _ (Agent.world p))
          as [[c | e1] w1]; cbn ];
    try (destruct (Agent.encode payload) as [data | e0]; cbn;
         [ match goal with
           | |- context [Agent.publish ps c topic data ?w] =>
               destruct (Agent.publish ps c topic data w) as [[f | e2] w2]; cbn
           end | ]);
    (split; [ lia | ]);
    intros pre entry post Heq Hbad;
    destruct pre as [ | x1 [ | x2 [ | x3 [ | x4 pre ] ] ] ]; cbn in Heq;
    try discriminate; injection Heq as Heq; subst;
    try discriminate; try reflexivity.
Qed.

(** ** The UTF-8 encoding of the payload *)

Module EncodeFacts.
Import Agent AgentCalls.

Lemma encode_char_none c : encode_char c = None <-> is_surrogate c = true.
Proof.
  unfold encode_char, is_surrogate.
  destruct (N.ltb_spec c 128); [ split; [ discriminate | ] | ].
  { destruct (N.leb_spec 55296 c); [ lia | discriminate ]. }
  destruct (N.ltb_spec c 2048); [ split; [ discriminate | ] | ].
  { destruct (N.leb_spec 55296 c); [ lia | discriminate ]. }
  destruct (N.ltb_spec c 65536).
  - destruct ((55296 <=? c) && (c <=? 57343))%N; split; congruence.
  - split; [ discriminate | ].
    destruct (N.leb_spec 55296 c); cbn; [ | discriminate ].
    destruct (N.leb_spec c 57343); [ lia | discriminate ].
Qed.

Lemma log2_byte a : (a < 256)%N -> (N.log2 a < 8)%N.
Proof.
  intros H. destruct (N.eq_dec a 0) as [-> | Hne]; [ reflexivity | ].
  apply N.log2_lt_pow2; [ lia | exact H ].
Qed.

Lemma lor_byte a b : (a < 256)%N -> (b < 256)%N -> (N.lor a b < 256)%N.
Proof.
  intros Ha Hb. destruct (N.eq_dec (N.lor a b) 0) as [-> | Hne]; [ lia | ].
  apply (N.log2_lt_pow2 _ 8); [ lia | ].
  rewrite N.log2_lor. apply log2_byte in Ha, Hb. lia.
Qed.

Lemma low_six_byte x : (N.lor 128 (N.land x 63) < 256)%N.
Proof.
  apply lor_byte; [ lia | ].
  change 63%N with (N.ones 6). rewrite N.land_ones.
  assert (x mod 2 ^ 6 < 2 ^ 6)%N as H
    by (apply N.mod_upper_bound; discriminate).
  change (2 ^ 6)%N with 64%N in *. lia.
Qed.

Lemma shiftr_byte c k bound :
  (c < bound)%N -> (bound <= 2 ^ k * 256)%N -> (N.shiftr c k < 256)%N.
Proof.
  intros Hc Hb. rewrite N.shiftr_div_pow2.
  apply N.Div0.div_lt_upper_bound. lia.
Qed.

Lemma encode_char_bytes c b :
  (c < 1114112)%N -> encode_char c = Some b ->
  Forall (fun x => (x < 256)%N) b /\ 1 <= List.length b <= 4.
Proof.
  intros Hc. unfold encode_char.
  destruct (N.ltb_spec c 128).
  { intros Heq. replace b with [c] by congruence.
    split; [ | cbn; lia ].
    apply Forall_cons; [ lia | apply Forall_nil ]. }
  destruct (N.ltb_spec c 2048).
  { intros Heq.
    replace b with [N.lor 192 (N.shiftr c 6); N.lor 128 (N.land c 63)]
      by congruence.
    split; [ | cbn [List.length]; lia ].
    repeat (apply Forall_cons || apply Forall_nil); try apply low_six_byte.
    apply lor_byte; [ lia | ]. apply (shiftr_byte c 6 2048); [ assumption | ].
    change (2 ^ 6)%N with 64%N. lia. }
  destruct (N.ltb_spec c 65536).
  { destruct ((55296 <=? c) && (c <=? 57343))%N; [ discriminate | ].
    intros Heq.
    replace b with [N.lor 224 (N.shiftr c 12);
                    N.lor 128 (N.land (N.shiftr c 6) 63);
                    N.lor 128 (N.land c 63)] by congruence.
    split; [ | cbn [List.length]; lia ].
    repeat (apply Forall_cons || apply Forall_nil); try apply low_six_byte.
    apply lor_byte; [ lia | ]. apply (shiftr_byte c 12 65536); [ assumption | ].
    change (2 ^ 12)%N with 4096%N. lia. }
  intros Heq.
  replace b with [N.lor 240 (N.shiftr c 18);
                  N.lor 128 (N.land (N.shiftr c 12) 63);
                  N.lor 128 (N.land (N.shiftr c 6) 63);
                  N.lor 128 (N.land c 63)] by congruence.
  split; [ | cbn [List.length]; lia ].
  repeat (apply Forall_cons || apply Forall_nil); try apply low_six_byte.
  apply lor_byte; [ lia | ]. apply (shiftr_byte c 18 1114112); [ assumption | ].
  change (2 ^ 18)%N with 262144%N. lia.
Qed.

Lemma encode_surrogates (s : list N) :
  match encode s with
  | Return _ => existsb is_surrogate s = false
  | Raise e => e = UnicodeEncodeError /\ existsb is_surrogate s = true
  end.
Proof.
  induction s as [ | c s IH ]; cbn; [ reflexivity | ].
  destruct (encode_char c) as [b | ] eqn:Hc.
  - assert (is_surrogate c = false) as ->.
    { destruct (is_surrogate c) eqn:E; [ | reflexivity ].
      apply encode_char_none in E. congruence. }
    destruct (encode s); cbn; exact IH.
  - apply encode_char_none in Hc. rewrite Hc; cbn.
    split; reflexivity.
Qed.

End EncodeFacts.

(** X9: [encode] raises exactly when the payload holds a surrogate code
    point, and the exception is then [UnicodeEncodeError]; any other
    payload is encoded. *)
Theorem encode_fails_on_surrogates (s : list N) :
  (existsb AgentCalls.is_surrogate s = true <->
   Agent.encode s = Agent.Raise Agent.UnicodeEncodeError) /\
  (existsb AgentCalls.is_surrogate s = false <->
   exists data, Agent.encode s = Agent.Return data).
Proof.
  pose proof (EncodeFacts.encode_surrogates s) as H.
  destruct (Agent.encode s) as [data | e].
  - rewrite H. split; split; try discriminate; eauto.
  - destruct H as [-> H]. rewrite H.
    split; split; try discriminate; auto.
    intros [data Hd]. discriminate.
Qed.

Lemma encode_ascii (s : list N) :
  Forall (fun c => (c < 128)%N) s -> Agent.encode s = Agent.Return s.
Proof.
  induction 1 as [ | c s Hc _ IH ]; cbn; [ reflexivity | ].
  unfold Agent.encode_char. apply N.ltb_lt in Hc. now rewrite Hc, IH.
Qed.

(** X10: a payload of ASCII code points only is published as it is: the
    bytes [publish_record] hands to [publish] are the code points of the
    payload, one byte each. *)
Theorem ascii_payload_published_verbatim {World Publisher Future : Type}
    (ps : Agent.PubSub World Publisher Future)
    (topic : string) (payload : list N) (p : Agent.Process World Publisher) :
  Forall (fun c => (c < 128)%N) payload ->
  forall c t data r,
    In (AgentCalls.Publish c t data r)
      (snd (Agent.world
              (snd (Agent.publish_record (AgentCalls.recording ps) topic
                      payload (AgentCalls.observed Future p))))) ->
    data = payload.
Proof.
  intros Hascii. rewrite publish_record_log; cbv zeta.
  rewrite (encode_ascii payload Hascii).
  destruct (Agent.dict_get topic (Agent._publishers p)) as [c | ]; cbn;
    [ | destruct (Agent.PublisherClient ps _ (Agent.world p))
          as [[c | e1] w1]; cbn ];
    try match goal with
        | |- context [Agent.publish ps c topic payload ?w] =>
            destruct (Agent.publish ps c topic payload w) as [[f | e2] w2]; cbn
        end;
    intros c' t data r H; in_cases; try discriminate;
    now injection H as _ _ <- _.
Qed.

Lemma ascii_payload_published_verbatim_witness :
  [123; 125]%N = Scenario.empty_object.
Proof.
  apply (ascii_payload_published_verbatim Agent.test_pubsub Scenario.topic
           Scenario.empty_object
           (Scenario.fresh_process (Scenario.world true true false))
           (Forall_cons (P := fun c => (c < 128)%N) 123%N eq_refl
              (Forall_cons (P := fun c => (c < 128)%N) 125%N eq_refl
                 (Forall_nil _)))
           {| Agent.max_messages := 1 |} Scenario.topic [123; 125]%N
           (Agent.Return true)).
  right. left. reflexivity.
Defined.

(** X11: for a payload of code points below 0x110000, what [encode]
    returns is a sequence of bytes (values below 256), of one to four
    bytes per code point. *)
Theorem encode_gives_bytes (s data : list N) :
  Forall (fun c => (c < 1114112)%N) s ->
  Agent.encode s = Agent.Return data ->
  Forall (fun b => (b < 256)%N) data /\
  List.length s <= List.length data <= 4 * List.length s.
Proof.
  intros Hs. revert data.
  induction Hs as [ | c s Hc _ IH ]; cbn; intros data.
  - intros [= <-]. split; [ constructor | cbn; lia ].
  - destruct (Agent.encode_char c) as [b | ] eqn:Eb; [ | discriminate ].
    destruct (Agent.encode s) as [bs | e]; [ | discriminate ].
    intros [= <-].
    destruct (EncodeFacts.encode_char_bytes c b Hc Eb) as [Hb Hlen].
    destruct (IH bs eq_refl) as [Hbs Hlens].
    split; [ apply Forall_app; now split | ].
    rewrite length_app. lia.
Qed.

Lemma encode_gives_bytes_witness :
  Forall (fun b => (b < 256)%N) [195; 169]%N /\ 1 <= 2 <= 4 * 1.
Proof.
  apply (encode_gives_bytes [233%N] [195; 169]%N).
  - repeat constructor.
  - reflexivity.
Defined.

(** X12: a payload holding a surrogate code point is never published:
    with a client at hand, [publish_record] returns the empty dictionary
    and leaves the process as obtaining the client left it, without any
    call to [publish]. *)
Theorem unencodable_payload_not_published {World Publisher Future : Type}
    (ps : Agent.PubSub World Publisher Future)
    (topic : string) (payload : list N)
    (p p1 : Agent.Process World Publisher) (c : Publisher) :
  existsb AgentCalls.is_surrogate payload = true ->
  Agent.publisher_for ps topic p = (Agent.Return c, p1) ->
  Agent.publish_record ps topic payload p = (Agent.Return [], p1) /\
  filter AgentCalls.is_publish
    (snd (Agent.world
            (snd (Agent.publish_record (AgentCalls.recording ps) topic payload
                    (AgentCalls.observed Future p))))) = [].
Proof.
  intros Hsur Hclient.
  pose proof (EncodeFacts.encode_surrogates payload) as Henc.
  destruct (Agent.encode payload) as [data | e] eqn:E; [ congruence | ].
  destruct Henc as [-> _]. split.
  - unfold Agent.publish_record, Agent.try_body. rewrite Hclient, E; cbn.
    now destruct p1.
  - rewrite publish_record_log; cbv zeta. rewrite E.
    revert Hclient. unfold Agent.publisher_for.
    destruct (Agent.dict_get topic (Agent._publishers p)); [ reflexivity | ].
    destruct (Agent.PublisherClient ps _ (Agent.world p)) as [[c1 | e1] w1];
      reflexivity.
Qed.


(** * Properties of [delete.py] *)

Module DeleteFacts.
Import Script Delete.

Lemma endswith_spec s suffix :
  endswith s suffix = true <-> exists pre, s = (pre ++ suffix)%string.
Proof.
  induction s as [ | c s IH ]; cbn [endswith].
  - destruct (String.eqb_spec EmptyString suffix) as [<- | Hne].
    + split; [ now exists EmptyString | reflexivity ].
    + split; [ discriminate | ].
      intros [pre H]. destruct pre; cbn in H; [ congruence | discriminate ].
  - destruct (String.eqb_spec (String c s) suffix) as [<- | Hne].
    + split; [ now exists EmptyString | reflexivity ].
    + rewrite IH. split.
      * intros [pre ->]. now exists (String c pre).
      * intros [pre H]. destruct pre as [ | c' pre ]; cbn in H;
          [ congruence | ].
        injection H as _ ->. now exists pre.
Qed.

Lemma contains_slash_cons c s :
  contains "/" (String c s) = Ascii.eqb c "/"%char || contains "/" s.
Proof.
  change (contains "/" (String c s))
    with (if (if Ascii.ascii_dec "/" c then String.prefix "" s else false)
          then true else contains "/" s).
  assert (String.prefix "" s = true) as -> by (destruct s; reflexivity).
  destruct (Ascii.ascii_dec "/" c) as [<- | Hne]; [ reflexivity | ].
  destruct (Ascii.eqb_spec c "/"%char); [ congruence | reflexivity ].
Qed.

Lemma endswith_slash_contains s short :
  endswith s (String "/" short) = true -> contains "/" s = true.
Proof.
  induction s as [ | c s IH ].
  - cbn [endswith].
    destruct (String.eqb_spec EmptyString (String "/" short));
      discriminate.
  - rewrite contains_slash_cons. cbn [endswith].
    destruct (String.eqb_spec (String c s) (String "/" short)) as [E | _].
    + injection E as -> _. reflexivity.
    + intros H. rewrite (IH H). apply orb_true_r.
Qed.

Lemma search_found {World} short l (p p' : Process World) app :
  search short l p = (Return (Some app), p') ->
  is_target short app = true /\
  exists pre post,
    yielded l = pre ++ app :: post /\
    forallb (fun x => negb (is_target short x)) pre = true.
Proof.
  revert p. induction l as [ | x rest IH | e ]; cbn; intros p;
    try discriminate.
  destruct (is_target short x) eqn:Hx.
  - intros [= <- _]. split; [ assumption | ]. now exists [], (yielded rest).
  - intros H. destruct (IH _ H) as (Ht & pre & post & Hy & Hpre).
    split; [ assumption | ]. exists (x :: pre), post. cbn.
    rewrite Hy, Hx, Hpre. now split.
Qed.

Lemma search_none {World} short l (p p' : Process World) :
  search short l p = (Return None, p') ->
  forallb (fun x => negb (is_target short x)) (yielded l) = true.
Proof.
  revert p. induction l as [ | x rest IH | e ]; cbn; intros p;
    try discriminate; [ reflexivity | ].
  destruct (is_target short x) eqn:Hx; [ discriminate | ].
  intros H. cbn. now apply IH in H.
Qed.

(** The loop makes no call into the SDK. *)
Lemma search_world {World} short l (p : Process World) :
  world (snd (search short l p)) = world p.
Proof.
  revert p. induction l as [ | x rest IH | e ]; cbn; intros p;
    try reflexivity.
  destruct (is_target short x); [ reflexivity | ]. now rewrite IH.
Qed.

(** What the loop finds does not depend on the process it runs in. *)
Lemma search_result {W W'} short l (p : Process W) (q : Process W') :
  match fst (search short l p), fst (search short l q) with
  | Return a, Return b => a = b
  | Raise e, Raise e' => e = e'
  | _, _ => False
  end.
Proof.
  revert p q. induction l as [ | x rest IH | e ]; cbn; intros p q;
    try reflexivity.
  destruct (is_target short x); [ reflexivity | ]. apply IH.
Qed.

End DeleteFacts.

(** X13: called with a number of arguments other than three (after the
    script name), [main] of [delete.py] writes the usage line to the
    standard error, leaves with status 1, and calls nothing in the SDK. *)
Theorem delete_main_usage {World} (sdk : Delete.Sdk World)
    (argv : list string) (p : Delete.Process World) :
  List.length argv <> 4 ->
  Delete.main sdk argv p =
  (Script.Exits 1,
   Delete.print Script.stderr
     "Usage: python delete_agent.py <PROJECT_ID> <LOCATION> <AGENT_SHORT_ID>"
     p).
Proof.
  intros Hlen.
  destruct argv as [ | a0 [ | a1 [ | a2 [ | a3 [ | a4 rest ] ] ] ] ];
    try reflexivity.
  now elim Hlen.
Qed.

Lemma delete_main_usage_witness :
  fst (Delete.main (Delete.recording
                      {| Delete.vertexai_init := fun _ _ w => (Script.Return tt, w);
                         Delete.agent_engines_list := fun w =>
                           (Script.Return Delete.Stop, w);
                         Delete.agent_delete := fun _ _ w => (Script.Return tt, w) |})
         ["delete.py"; "my-project"]
         (Delete.observed {| Delete.out := []; Delete.world := tt |})) =
  Script.Exits 1.
Proof.
  rewrite delete_main_usage; [ reflexivity | cbn; lia ].
Defined.

Lemma delete_search_recorded {World} short l (o : Script.Output) (w : World)
    (log : list Delete.SdkCall) :
  let plain := Delete.search short l {| Delete.out := o; Delete.world := w |} in
  Delete.search short l {| Delete.out := o; Delete.world := (w, log) |} =
  (fst plain,
   {| Delete.out := Delete.out (snd plain); Delete.world := (w, log) |}).
Proof.
  cbv zeta. revert o. induction l as [ | x rest IH | e ]; cbn; intros o;
    try reflexivity.
  destruct (Delete.is_target short x); [ reflexivity | ].
  apply IH.
Qed.

Lemma delete_target_search {World} short l (p : Delete.Process World) :
  fst (Delete.search short l p) = delete_target short l.
Proof.
  unfold delete_target.
  pose proof (DeleteFacts.search_result short l p
                {| Delete.out := []; Delete.world := tt |}) as H.
  destruct (fst (Delete.search short l p)),
    (fst (Delete.search short l {| Delete.out := []; Delete.world := tt |}));
    congruence || contradiction.
Qed.

(** [main] over a recording SDK ends as over the SDK itself, prints the
    same, and logs the calls of [delete_calls]. *)
Lemma delete_main_recorded {World} (sdk : Delete.Sdk World)
    (a0 project_id location short : string) (p : Delete.Process World) :
  Delete.main (Delete.recording sdk) [a0; project_id; location; short]
    (Delete.observed p) =
  let r := Delete.main sdk [a0; project_id; location; short] p in
  (fst r,
   {| Delete.out := Delete.out (snd r);
      Delete.world :=
        (Delete.world (snd r),
         delete_calls sdk project_id location short (Delete.world p)) |}).
Proof.
  cbv zeta.
  unfold Delete.main, Delete.try_body, delete_calls, Delete.observed,
    Delete.with_world, Delete.print; cbn.
  destruct (Delete.vertexai_init sdk project_id location (Delete.world p))
    as [[[] | e0] w0]; cbn.
  2: { destruct (Agent.is_Exception (Script.exc e0)); [ | reflexivity ].
       unfold Delete.handler, Delete.print; cbn.
       destruct (Script.contains _ _); reflexivity. }
  destruct (Delete.agent_engines_list sdk w0) as [[l | e1] w1]; cbn.
  2: { destruct (Agent.is_Exception (Script.exc e1)); [ | reflexivity ].
       unfold Delete.handler, Delete.print; cbn.
       destruct (Script.contains _ _); reflexivity. }
  match goal with
  | |- context [Delete.search short l
                  {| Delete.out := ?o; Delete.world := (w1, ?lg) |}] =>
      rewrite (delete_search_recorded short l o w1 lg); cbv zeta;
      rewrite <- (delete_target_search short l
                    {| Delete.out := o; Delete.world := w1 |});
      pose proof (DeleteFacts.search_world short l
                    {| Delete.out := o; Delete.world := w1 |}) as Hw;
      destruct (Delete.search short l
                  {| Delete.out := o; Delete.world := w1 |})
        as [[[app | ] | e2] p2]
  end; cbn in *; subst.
  - destruct (Delete.agent_delete sdk app true (Delete.world p2))
      as [[[] | e3] w3]; cbn; [ reflexivity | ].
    destruct (Agent.is_Exception (Script.exc e3)); [ | reflexivity ].
    unfold Delete.handler, Delete.print; cbn.
    destruct (Script.contains _ _); reflexivity.
  - reflexivity.
  - destruct (Agent.is_Exception (Script.exc e2)); [ | reflexivity ].
    unfold Delete.handler, Delete.print; cbn.
    destruct (Script.contains _ _); reflexivity.
Qed.

(** X14: [main] of [delete.py] deletes at most one agent, always with
    [force=True], and only the first agent of the listing whose name is
    the short identifier given on the command line or ends with a slash
    followed by it; agents listed before it did not pass that test. *)
Theorem delete_main_deletes_first_match {World} (sdk : Delete.Sdk World)
    (argv : list string) (p : Delete.Process World) :
  let log :=
    snd (Delete.world
           (snd (Delete.main (Delete.recording sdk) argv (Delete.observed p)))) in
  List.length (filter Delete.is_delete log) <= 1 /\
  (forall app force r,
     In (Delete.SdkDelete app force r) log ->
     force = true /\
     exists short l pre post,
       nth_error argv 3 = Some short /\
       (exists w, fst (Delete.agent_engines_list sdk w) = Script.Return l) /\
       Delete.yielded l = pre ++ app :: post /\
       Delete.is_target short app = true /\
       forallb (fun x => negb (Delete.is_target short x)) pre = true).
Proof.
  cbv zeta.
  destruct argv as [ | a0 [ | a1 [ | a2 [ | a3 [ | a4 rest ] ] ] ] ];
    try (cbn; split; [ lia | intros app force r [] ]).
  rewrite delete_main_recorded; cbn. unfold delete_calls.
  destruct (Delete.vertexai_init sdk a1 a2 (Delete.world p))
    as [[[] | e0] w0]; cbn.
  2: { split; [ lia | ]. intros app force r H; in_cases; discriminate. }
  destruct (Delete.agent_engines_list sdk w0) as [[l | e1] w1] eqn:Hl; cbn.
  2: { split; [ lia | ]. intros app force r H; in_cases; discriminate. }
  destruct (delete_target a3 l) as [[found | ] | e2] eqn:Ht; cbn.
  - split; [ lia | ]. intros app force r H; in_cases; try discriminate.
    injection H as <- <- _. split; [ reflexivity | ].
    unfold delete_target in Ht.
    destruct (Delete.search a3 l _) as [res p'] eqn:Hs; cbn in Ht; subst res.
    apply DeleteFacts.search_found in Hs as (Htarget & pre & post & Hy & Hpre).
    exists a3, l, pre, post. repeat split; try assumption.
    exists w0. now rewrite Hl.
  - split; [ lia | ]. intros app force r H; in_cases; discriminate.
  - split; [ lia | ]. intros app force r H; in_cases; discriminate.
Qed.



Lemma contains_slash_string (c : ascii) (s short : string) :
  Script.contains "/" short = false ->
  Script.contains "/" s = true -> String c s <> short /\ s <> short.
Proof.
  intros Hshort Hs. split; intros <-.
  - rewrite DeleteFacts.contains_slash_cons, Hs, orb_true_r in Hshort.
    discriminate.
  - congruence.
Qed.

(** X16: for a short identifier without a slash, the test of [delete.py]
    accepts an agent exactly when the last segment of its resource name
    (the text after its last slash, or the whole name when it has none)
    is the short identifier: an identifier that is only the tail of the
    last segment does not select the agent. *)
Theorem is_target_last_segment (short : string) (app : Delete.App) :
  Script.contains "/" short = false ->
  (Delete.is_target short app = true <->
   Delete.last_segment (Delete.name app) = short).
Proof.
  intros Hshort. unfold Delete.is_target.
  generalize (Delete.name app) as s.
  induction s as [ | c s IH ].
  - cbn [Script.endswith Delete.last_segment String.append].
    destruct (String.eqb_spec "" (String "/" short)); [ discriminate | ].
    cbn [orb]. apply String.eqb_eq.
  - cbn [Script.endswith Delete.last_segment String.append] in *.
    destruct (Script.contains "/" s) eqn:Hs.
    + destruct (contains_slash_string c s short Hshort Hs) as [Hcs Hss].
      rewrite <- IH.
      destruct (String.eqb_spec (String c s) (String "/" short)) as [E | _];
        [ injection E as _ E; contradiction | ].
      destruct (String.eqb_spec (String c s) short); [ contradiction | ].
      destruct (String.eqb_spec s short); [ contradiction | ].
      reflexivity.
    + assert (Script.endswith s (String "/" short) = false) as Hend.
      { destruct (Script.endswith s (String "/" short)) eqn:E;
          [ | reflexivity ].
        apply DeleteFacts.endswith_slash_contains in E. congruence. }
      rewrite Hend.
      destruct (Ascii.eqb_spec c "/"%char) as [-> | Hc].
      * assert (String "/" s <> short) as Hne.
        { intros <-. rewrite DeleteFacts.contains_slash_cons in Hshort.
          discriminate. }
        destruct (String.eqb_spec (String "/" s) short); [ contradiction | ].
        rewrite orb_false_r.
        destruct (String.eqb_spec (String "/" s) (String "/" short)) as [E | Hn].
        -- injection E as ->. tauto.
        -- split; [ discriminate | ]. intros ->. now elim Hn.
      * destruct (String.eqb_spec (String c s) (String "/" short)) as [E | _];
          [ injection E as E _; contradiction | ].
        cbn [orb]. apply String.eqb_eq.
Qed.

Lemma is_target_last_segment_witness :
  Delete.is_target "98765"
    {| Delete.name := "projects/p/locations/us-central1/reasoningEngines/98765";
       Delete.resource := 0 |} = true /\
  Delete.is_target "765"
    {| Delete.name := "projects/p/locations/us-central1/reasoningEngines/98765";
       Delete.resource := 0 |} = false.
Proof.
  split.
  - apply (is_target_last_segment "98765"); reflexivity.
  - reflexivity.
Defined.

Lemma delete_main_deletes_first_match_example :
  let agent n := {| Delete.name := n; Delete.resource := 0 |} in
  let sdk :=
    {| Delete.vertexai_init := fun _ _ w => (Script.Return tt, w);
       Delete.agent_engines_list := fun w =>
         (Script.Return
            (Delete.Yield (agent "reasoningEngines/198765")
               (Delete.Yield (agent "reasoningEngines/98765")
                  (Delete.Throw
                     {| Script.exc := Agent.ServiceUnavailable;
                        Script.message := "next page failed" |}))), w);
       Delete.agent_delete := fun app _ w => (Script.Return tt, w ++ [app]) |} in
  Delete.main sdk ["delete.py"; "p"; "us-central1"; "98765"]
    {| Delete.out := []; Delete.world := [] |} =
  (Script.Returns,
   {| Delete.out :=
        [(Script.stdout, "--- Attempting to Delete Fraud Agent ---");
         (Script.stdout, "Project ID: p");
         (Script.stdout, "Location: us-central1");
         (Script.stdout, "Searching for short Agent ID: 98765");
         (Script.stdout, "Searching for agent by short ID...");
         (Script.stdout, "DEBUG: Checking agent: reasoningEngines/198765");
         (Script.stdout, "DEBUG: Checking agent: reasoningEngines/98765");
         (Script.stdout,
          "✅ Found agent: reasoningEngines/98765. Deleting resource...");
         (Script.stdout,
          "✅ Agent 'reasoningEngines/98765' and all associated resources deleted successfully.")];
      Delete.world := [agent "reasoningEngines/98765"] |}).
Proof. reflexivity. Qed.


(** * Properties of [deploy.py] *)

Module DeployFacts.
Import Script Deploy.

Lemma dict_get_set_same {V} k (v : V) d :
  Agent.dict_get k (dict_set k v d) = Some v.
Proof.
  induction d as [ | [k' v'] d IH ]; cbn.
  - now rewrite String.eqb_refl.
  - destruct (String.eqb k k') eqn:E; cbn.
    + now rewrite String.eqb_refl.
    + now rewrite E.
Qed.

Lemma dict_get_set_other {V} k k' (v : V) d :
  k <> k' -> Agent.dict_get k (dict_set k' v d) = Agent.dict_get k d.
Proof.
  intros Hne. induction d as [ | [k0 v0] d IH ]; cbn.
  - apply String.eqb_neq in Hne. now rewrite Hne.
  - destruct (String.eqb_spec k' k0) as [<- | Hk]; cbn.
    + apply String.eqb_neq in Hne. now rewrite Hne.
    + destruct (String.eqb k k0); [ reflexivity | exact IH ].
Qed.



End DeployFacts.

Module DeploySteps.
Import Script Deploy.

Section Steps.
Context {St World App Remote : Type}.
Variable sdk : Sdk St World App Remote.
Implicit Types (p : Process St World) (log : list (SdkCall App)).











End Steps.
End DeploySteps.


(** X17: [get_session_service] builds the service once. After a call
    that returned a service, every later call returns that same service
    and leaves the globals as they are, whatever [_CONFIG] holds by then
    and whatever the constructor would do. *)
Theorem get_session_service_singleton {St : Type}
    (V V' : string -> string -> Script.result (BaseSessionService.t St))
    (g g1 : Deploy.Globals St) (service : ImplicitSessionService.t St)
    (config : list (string * string)) :
  Deploy.get_session_service V g = (Script.Return service, g1) ->
  let later := {| Deploy._session_service := Deploy._session_service g1;
                  Deploy._CONFIG := config |} in
  Deploy.get_session_service V' later = (Script.Return service, later).
Proof.
  intros Hfirst. cbv zeta.
  assert (Deploy._session_service g1 = Some service) as Hset.
  { revert Hfirst. unfold Deploy.get_session_service.
    destruct (Deploy._session_service g) as [s0 | ] eqn:Hg.
    - now intros [= <- <-].
    - destruct (Deploy.subscript _ "PROJECT_ID"); [ | discriminate ].
      destruct (Deploy.subscript _ "REGION"); [ | discriminate ].
      destruct (V a a0) as [v | e]; [ | discriminate ].
      cbn. now intros [= <- <-]. }
  unfold Deploy.get_session_service; cbn. now rewrite Hset.
Qed.

Lemma get_session_service_singleton_witness :
  let V := fun _ _ : string => Script.Return InMemory.service in
  let built :=
    {| Deploy._session_service := Some (proxy InMemory.service);
       Deploy._CONFIG := [] |} in
  Deploy.get_session_service V built =
  (Script.Return (proxy InMemory.service), built).
Proof.
  cbv zeta.
  exact (get_session_service_singleton
           (fun _ _ => Script.Return InMemory.service)
           (fun _ _ => Script.Return InMemory.service)
           {| Deploy._session_service := None;
              Deploy._CONFIG := [("PROJECT_ID", "p"); ("REGION", "r")] |}
           _ (proxy InMemory.service) [] eq_refl).
Defined.

(** X18: a call of [get_session_service] that raises leaves the globals
    unchanged (no half-built service is kept). With no service built yet
    it raises [KeyError] for "PROJECT_ID" when [_CONFIG] lacks that key,
    and for "REGION" when only that one is missing, without calling the
    constructor. *)
Theorem get_session_service_missing_config {St : Type}
    (V : string -> string -> Script.result (BaseSessionService.t St))
    (g : Deploy.Globals St) :
  (forall e g', Deploy.get_session_service V g = (Script.Raise e, g') -> g' = g) /\
  (Deploy._session_service g = None ->
   match Agent.dict_get "PROJECT_ID" (Deploy._CONFIG g),
         Agent.dict_get "REGION" (Deploy._CONFIG g) with
   | None, _ =>
       Deploy.get_session_service V g =
       (Script.Raise (Script.KeyError "PROJECT_ID"), g)
   | Some _, None =>
       Deploy.get_session_service V g =
       (Script.Raise (Script.KeyError "REGION"), g)
   | Some project_id, Some location =>
       Deploy.get_session_service V g =
       match V project_id location with
       | Script.Return vertex =>
           (Script.Return (proxy vertex),
            {| Deploy._session_service := Some (proxy vertex);
               Deploy._CONFIG := Deploy._CONFIG g |})
       | Script.Raise e => (Script.Raise e, g)
       end
   end).
Proof.
  unfold Deploy.get_session_service, Deploy.subscript. split.
  - intros e g'. destruct (Deploy._session_service g); [ discriminate | ].
    destruct (Agent.dict_get "PROJECT_ID" _); [ | now intros [= _ <-] ].
    destruct (Agent.dict_get "REGION" _); [ | now intros [= _ <-] ].
    destruct (V s s0); cbn; [ discriminate | now intros [= _ <-] ].
  - intros ->.
    destruct (Agent.dict_get "PROJECT_ID" _); [ | reflexivity ].
    destruct (Agent.dict_get "REGION" _); [ | reflexivity ].
    destruct (V s s0); reflexivity.
Qed.

(** X19: called with a number of arguments other than two (after the
    script name), [main] of [deploy.py] writes the usage line to the
    standard error and leaves with status 1; it changes no global and
    calls nothing in the SDK. *)
Theorem deploy_main_usage {St World App Remote}
    (V : string -> string -> Script.result (BaseSessionService.t St))
    (sdk : Deploy.Sdk St World App Remote)
    (argv : list string) (p : Deploy.Process St World) :
  List.length argv <> 3 ->
  Deploy.main V sdk argv p =
  (Script.Exits 1,
   Deploy.print Script.stderr "Usage: python deploy.py <PROJECT_ID> <REGION>" p).
Proof.
  intros Hlen.
  destruct argv as [ | a0 [ | a1 [ | a2 [ | a3 rest ] ] ] ]; try reflexivity.
  now elim Hlen.
Qed.

Lemma deploy_main_globals {St World App Remote}
    (V : string -> string -> Script.result (BaseSessionService.t St))
    (sdk : Deploy.Sdk St World App Remote)
    (a0 project_id location : string) (p : Deploy.Process St World) :
  Deploy.globals (snd (Deploy.main V sdk [a0; project_id; location] p)) =
  Deploy.globals
    (Deploy.set_config "STAGING_BUCKET"
       ("gs://fraud-example-staging-" ++ project_id)%string
       (Deploy.set_config "REGION" location
          (Deploy.set_config "PROJECT_ID" project_id p))).
Proof.
  unfold Deploy.main.
  destruct (Deploy.vertexai_init sdk _ _ _ _) as [[[] | e0] w0];
    [ | reflexivity ].
  destruct (Deploy.AdkApp sdk _ _ _ _) as [[adk | e1] w1]; [ | reflexivity ].
  destruct (Deploy.load_requirements sdk _) as [[reqs | e2] w2];
    [ | reflexivity ].
  destruct (Deploy.agent_engines_create sdk _ _ _ _ _) as [[remote | e3] w3];
    reflexivity.
Qed.

(** X20: [main] of [deploy.py], given a project and a region, leaves
    [_CONFIG] holding them under "PROJECT_ID" and "REGION", and the
    staging bucket "gs://fraud-example-staging-<project>" under
    "STAGING_BUCKET", whether or not the deployment then succeeds; other
    keys keep their values. A following [get_session_service], when no
    service was built before, therefore constructs the Vertex AI session
    service for that project and region and returns the shim over it. *)
Theorem deploy_main_configures {St World App Remote}
    (V : string -> string -> Script.result (BaseSessionService.t St))
    (sdk : Deploy.Sdk St World App Remote)
    (a0 project_id location : string) (p : Deploy.Process St World) :
  let g := Deploy.globals (snd (Deploy.main V sdk [a0; project_id; location] p)) in
  Agent.dict_get "PROJECT_ID" (Deploy._CONFIG g) = Some project_id /\
  Agent.dict_get "REGION" (Deploy._CONFIG g) = Some location /\
  Agent.dict_get "STAGING_BUCKET" (Deploy._CONFIG g) =
    Some ("gs://fraud-example-staging-" ++ project_id)%string /\
  (forall k, k <> "PROJECT_ID" -> k <> "REGION" -> k <> "STAGING_BUCKET" ->
     Agent.dict_get k (Deploy._CONFIG g) =
     Agent.dict_get k (Deploy._CONFIG (Deploy.globals p))) /\
  (Deploy._session_service (Deploy.globals p) = None ->
   Deploy.get_session_service V g =
   match V project_id location with
   | Script.Return vertex =>
       (Script.Return (proxy vertex),
        {| Deploy._session_service := Some (proxy vertex);
           Deploy._CONFIG := Deploy._CONFIG g |})
   | Script.Raise e => (Script.Raise e, g)
   end).
Proof.
  cbv zeta. rewrite deploy_main_globals. unfold Deploy.set_config;
    cbn [Deploy.globals Deploy._CONFIG Deploy._session_service].
  set (d := Deploy._CONFIG (Deploy.globals p)).
  assert (Agent.dict_get "PROJECT_ID"
            (Script.dict_set "STAGING_BUCKET"
               ("gs://fraud-example-staging-" ++ project_id)%string
               (Script.dict_set "REGION" location
                  (Script.dict_set "PROJECT_ID" project_id d))) =
          Some project_id) as Hp.
  { rewrite !DeployFacts.dict_get_set_other by discriminate.
    apply DeployFacts.dict_get_set_same. }
  assert (Agent.dict_get "REGION"
            (Script.dict_set "STAGING_BUCKET"
               ("gs://fraud-example-staging-" ++ project_id)%string
               (Script.dict_set "REGION" location
                  (Script.dict_set "PROJECT_ID" project_id d))) =
          Some location) as Hr.
  { rewrite DeployFacts.dict_get_set_other by discriminate.
    apply DeployFacts.dict_get_set_same. }
  split; [ exact Hp | ]. split; [ exact Hr | ].
  split; [ apply DeployFacts.dict_get_set_same | ]. split.
  - intros k H1 H2 H3. now rewrite !DeployFacts.dict_get_set_other.
  - intros Hnone. unfold Deploy.get_session_service, Deploy.subscript;
      cbn [Deploy._session_service Deploy._CONFIG].
    rewrite Hnone, Hp, Hr. destruct (V project_id location); reflexivity.
Qed.

Lemma deploy_main_usage_witness :
  Deploy.main (fun _ _ => Script.Return InMemory.service)
    {| Deploy.vertexai_init := fun _ _ _ w => (Script.Return tt, w);
       Deploy.AdkApp := fun _ _ _ w => (Script.Return tt, w);
       Deploy.read_pyproject := fun w => (Script.Return [], w);
       Deploy.agent_engines_create := fun _ _ _ _ w => (Script.Return tt, w);
       Deploy.display_name := fun _ => "Fraud Agent" |}
    ["deploy.py"; "my-project"]
    {| Deploy.out := [];
       Deploy.globals := {| Deploy._session_service := None;
                            Deploy._CONFIG := [] |};
       Deploy.world := tt |} =
  (Script.Exits 1,
   {| Deploy.out :=
        [(Script.stderr, "Usage: python deploy.py <PROJECT_ID> <REGION>")];
      Deploy.globals := {| Deploy._session_service := None;
                           Deploy._CONFIG := [] |};
      Deploy.world := tt |}).
Proof.
  rewrite deploy_main_usage; [ reflexivity | cbn; lia ].
Defined.


(** X22: [load_requirements] returns a value exactly when the parsed
    [pyproject.toml] has a table under "project" with a "dependencies"
    key, and then it is the value of that key, whatever its type. A
    document without "project", or a "project" table without
    "dependencies", makes it raise [KeyError] for the missing key: no
    default is substituted. *)
Theorem load_requirements_returns {St World App Remote}
    (sdk : Deploy.Sdk St World App Remote) (w : World) :
  (forall v,
     fst (Deploy.load_requirements sdk w) = Script.Return v <->
     exists doc project,
       fst (Deploy.read_pyproject sdk w) = Script.Return doc /\
       Agent.dict_get "project" doc = Some (Deploy.TTable project) /\
       Agent.dict_get "dependencies" project = Some v) /\
  (forall doc,
     fst (Deploy.read_pyproject sdk w) = Script.Return doc ->
     match Agent.dict_get "project" doc with
     | None =>
         fst (Deploy.load_requirements sdk w) =
         Script.Raise (Script.KeyError "project")
     | Some (Deploy.TTable project) =>
         Agent.dict_get "dependencies" project = None ->
         fst (Deploy.load_requirements sdk w) =
         Script.Raise (Script.KeyError "dependencies")
     | Some _ =>
         exists msg,
           fst (Deploy.load_requirements sdk w) =
           Script.Raise (Deploy.PyTypeError msg)
     end).
Proof.
  unfold Deploy.load_requirements, Deploy.subscript.
  destruct (Deploy.read_pyproject sdk w) as [[doc | e] w1];
    cbn [fst snd].
  - split.
    + intros v. split.
      * destruct (Agent.dict_get "project" doc) as [project | ] eqn:Hp;
          [ | discriminate ].
        destruct project as [ | | | | | entries ]; try discriminate.
        unfold Deploy.toml_subscript, Deploy.subscript; cbn [fst].
        destruct (Agent.dict_get "dependencies" entries) as [d | ] eqn:Hd;
          [ | discriminate ].
        intros [= <-]. now exists doc, entries.
      * intros (doc' & project & [= <-] & Hp & Hd). rewrite Hp.
        unfold Deploy.toml_subscript, Deploy.subscript; cbn [fst].
        now rewrite Hd.
    + intros doc' [= <-].
      destruct (Agent.dict_get "project" doc) as [project | ];
        [ | reflexivity ].
      destruct project as [ | | | | | entries ];
        try (eexists; reflexivity).
      intros Hd. unfold Deploy.toml_subscript, Deploy.subscript; cbn [fst].
      now rewrite Hd.
  - split.
    + intros v. split; [ discriminate | ].
      intros (doc & project & H & _). discriminate.
    + intros doc H. discriminate.
Qed.

(** ** Topic paths *)

Lemma string_append_cancel (pre a b : string) :
  (pre ++ a)%string = (pre ++ b)%string -> a = b.
Proof.
  induction pre as [ | c pre IH ]; cbn; [ auto | ].
  intros [= H]. auto.
Qed.

Lemma slash_free_split (p p' a b : string) :
  Script.contains "/" p = false -> Script.contains "/" p' = false ->
  (p ++ String "/" a)%string = (p' ++ String "/" b)%string ->
  p = p' /\ a = b.
Proof.
  revert p'. induction p as [ | c p IH ]; intros [ | c' p' ] Hp Hp'.
  - cbn. intros [= ->]. now split.
  - cbn [String.append]. intros [= <- _].
    rewrite DeleteFacts.contains_slash_cons in Hp'. discriminate.
  - cbn [String.append]. intros [= -> _].
    rewrite DeleteFacts.contains_slash_cons in Hp. discriminate.
  - cbn [String.append]. intros [= <- H].
    rewrite DeleteFacts.contains_slash_cons in Hp, Hp'.
    apply orb_false_iff in Hp as [_ Hp], Hp' as [_ Hp'].
    destruct (IH p' Hp Hp' H) as [-> ->]. now split.
Qed.

(** X23: the topic path [create_root_agent] builds determines the project
    and the topic: for project identifiers without a slash, equal paths
    come from equal projects and equal topic identifiers. For every
    project the paths of the two topics of [deploy.py] differ, so the
    publish tool keeps one client for each. *)
Theorem topic_path_injective (project_id project_id' topic_id topic_id' : string) :
  (Script.contains "/" project_id = false ->
   Script.contains "/" project_id' = false ->
   AgentFactory.topic_path project_id topic_id =
   AgentFactory.topic_path project_id' topic_id' ->
   project_id = project_id' /\ topic_id = topic_id') /\
  AgentFactory.topic_path project_id Deploy.AUGMENTED_TOPIC_ID <>
  AgentFactory.topic_path project_id Deploy.COMPROMISED_TOPIC_ID.
Proof.
  unfold AgentFactory.topic_path. split.
  - intros Hp Hp' H. apply string_append_cancel in H.
    change ("/topics/" ++ topic_id)%string
      with (String "/" ("topics/" ++ topic_id)%string) in H.
    change ("/topics/" ++ topic_id')%string
      with (String "/" ("topics/" ++ topic_id')%string) in H.
    apply slash_free_split in H as [-> H]; try assumption.
    apply string_append_cancel in H. now split.
  - intros H. do 3 apply string_append_cancel in H. discriminate.
Qed.

(** ** Waiting for the publish, and runs of the scripts *)

Lemma unencodable_payload_not_published_witness :
  fst (Agent.publish_record Agent.test_pubsub Scenario.topic
         Scenario.lone_surrogate
         (Scenario.fresh_process (Scenario.world true true false))) =
  Agent.Return [].
Proof.
  exact (f_equal fst
           (proj1 (unencodable_payload_not_published
                     (Future := bool) Agent.test_pubsub Scenario.topic
                     Scenario.lone_surrogate
                     (Scenario.fresh_process (Scenario.world true true false))
                     {| Agent._publishers :=
                          [(Scenario.topic, {| Agent.max_messages := 1 |})];
                        Agent.world := Scenario.world true true false |}
                     {| Agent.max_messages := 1 |} eq_refl eq_refl))).
Defined.

(** X24: the publish tool is synchronous: whenever [publish] returned a
    future, [publish_record] waits on that future (calls [result] on it)
    before it ends, and that wait is the last call it makes. *)
Theorem publish_record_waits {World Publisher Future : Type}
    (ps : Agent.PubSub World Publisher Future)
    (topic : string) (payload : list N) (p : Agent.Process World Publisher) :
  let log :=
    snd (Agent.world
           (snd (Agent.publish_record (AgentCalls.recording ps) topic payload
                   (AgentCalls.observed Future p)))) in
  forall c t data future,
    In (AgentCalls.Publish c t data (Agent.Return future)) log ->
    exists r, last log (AgentCalls.Publish c t data (Agent.Return future)) =
              AgentCalls.Wait future r.
Proof.
  cbv zeta. rewrite publish_record_log; cbv zeta.
  destruct (Agent.dict_get topic (Agent._publishers p)) as [c | ]; cbn;
    [ | destruct (Agent.PublisherClient ps _ (Agent.world p))
          as [[c | e1] w1]; cbn ];
    try (destruct (Agent.encode payload) as [data | e0]; cbn;
         [ match goal with
           | |- context [Agent.publish ps c topic data ?w] =>
               destruct (Agent.publish ps c topic data w) as [[f | e2] w2]; cbn
           end | ]);
    intros c' t data' future H; in_cases; try discriminate;
    injection H as <- <- <- <-; eexists; reflexivity.
Qed.

Lemma publish_record_waits_witness :
  exists r,
    last
      (snd (Agent.world
              (snd (Agent.publish_record
                      (AgentCalls.recording Agent.test_pubsub) Scenario.topic
                      Scenario.empty_object
                      (AgentCalls.observed bool
                         (Scenario.fresh_process
                            (Scenario.world true true false)))))))
      (AgentCalls.Publish {| Agent.max_messages := 1 |} Scenario.topic
         [123; 125]%N (Agent.Return true)) =
    AgentCalls.Wait true r.
Proof.
  apply (publish_record_waits Agent.test_pubsub Scenario.topic
           Scenario.empty_object
           (Scenario.fresh_process (Scenario.world true true false))
           {| Agent.max_messages := 1 |} Scenario.topic [123; 125]%N true).
  right. left. reflexivity.
Defined.

(** A run of [deploy.py]: what it prints, how it ends, and the calls it
    makes, over an SDK whose calls all return. *)
Example deploy_main_run :
  let sdk :=
    {| Deploy.vertexai_init := fun _ _ _ (w : unit) => (Script.Return tt, w);
       Deploy.AdkApp := fun _ _ _ w => (Script.Return 7, w);
       Deploy.read_pyproject := fun w =>
         (Script.Return
            [("project",
              Deploy.TTable
                [("name", Deploy.TString "fraud-agent");
                 ("dependencies",
                  Deploy.TArray [Deploy.TString "google-adk"])])], w);
       Deploy.agent_engines_create := fun _ name _ _ w => (Script.Return name, w);
       Deploy.display_name := fun remote => remote |} in
  let r :=
    Deploy.main (fun _ _ => Script.Return InMemory.service)
      (Deploy.recording sdk) ["deploy.py"; "my-project"; "us-central1"]
      (Deploy.observed nat
         {| Deploy.out := [];
            Deploy.globals := {| Deploy._session_service := None;
                                 Deploy._CONFIG := [] |};
            Deploy.world := tt |}) in
  fst r = Script.Returns /\
  Deploy.out (snd r) =
    [(Script.stdout, "--- Deploying Fraud Agent ---");
     (Script.stdout, "Project ID: my-project");
     (Script.stdout, "Region: us-central1");
     (Script.stdout, "Staging Bucket: gs://fraud-example-staging-my-project");
     (Script.stdout, "Starting AdkApp initialization...");
     (Script.stdout, "Remote agent created/updated successfully: Fraud Agent")] /\
  Deploy._CONFIG (Deploy.globals (snd r)) =
    [("PROJECT_ID", "my-project"); ("REGION", "us-central1");
     ("STAGING_BUCKET", "gs://fraud-example-staging-my-project")] /\
  map Deploy.call_returned (snd (Deploy.world (snd r))) =
    [true; true; true; true] /\
  filter Deploy.is_create (snd (Deploy.world (snd r))) =
    [Deploy.SdkCreate 7 "Fraud Agent"
       (Deploy.TArray [Deploy.TString "google-adk"])
       ["implicit_session_service.py"; "./agent"] true].
Proof. vm_compute. repeat split. Qed.
